(** * JARVIS AR interface: landmark interpretation and interaction mapping

    A shallow embedding of the original logic of the application:

    - [renderLoop] (App.tsx): the frame-skip-aware inference driver that
      interprets the face and hand landmarks into [FaceData] / [HandData];
    - the [useFrame] callback of HolographicEarth.tsx: rotation rate, target
      scale and smoothing of the holographic globe;
    - [updateHUD] (SmartHUD.tsx): screen placement of the HUD panel.

    JavaScript numbers are IEEE-754 binary64 values.  The program is written
    once over an interface [Number] of the arithmetic it uses and is read at
    two instances: [Float64] (Rocq's primitive binary64 floats, bit-exact and
    executable) and [Ideal] (the real numbers, for the statements that speak
    about exact arithmetic). *)

From Stdlib Require Import ZArith QArith Qreals Reals Lra Lia Floats List Bool String.
Import ListNotations.

Set Warnings "-inexact-float".

(** ** Numbers *)

Declare Scope js_scope.
Delimit Scope js_scope with js.

(** The operations on [number] that the sources use.  [lit] reads a decimal
    literal of the source text; [strict_eq] is [===]; [leb] is [<=], which
    only the specification uses. *)
Class Number (num : Type) : Type := {
  lit : Q -> num;
  num_add : num -> num -> num;
  num_sub : num -> num -> num;
  num_mul : num -> num -> num;
  num_ltb : num -> num -> bool;
  num_leb : num -> num -> bool;
  strict_eq : num -> num -> bool;
  Math_sqrt : num -> num;
  Math_max : num -> num -> num;
  Math_min : num -> num -> num
}.

Notation "# q" := (lit q%Q) (at level 1, q constr at level 0, format "# q") : js_scope.
Infix "+" := num_add : js_scope.
Infix "-" := num_sub : js_scope.
Infix "*" := num_mul : js_scope.
Infix "<?" := num_ltb : js_scope.
Infix "<=?" := num_leb : js_scope.
Infix "===" := strict_eq (at level 70, no associativity) : js_scope.
Notation "a !== b" := (negb (strict_eq a b)) (at level 70, no associativity) : js_scope.

(** [Math.pow(v, 2)]: for the exponent 2 the engines return the correctly
    rounded product [v * v]. *)
Definition Math_pow2 {num} `{Number num} (v : num) : num := num_mul v v.

(** *** Binary64 *)

Module F64.

(** A decimal literal [n / 10^k] whose numerator and denominator are exact
    in binary64 rounds, by one correctly rounded division, to the double
    nearest to it, which is the value the JavaScript parser gives it. *)
Definition of_Z (z : Z) : float :=
  match z with
  | Z0 => 0%float
  | Zpos p => PrimFloat.of_uint63 (Uint63.of_Z (Zpos p))
  | Zneg p => (- PrimFloat.of_uint63 (Uint63.of_Z (Zpos p)))%float
  end.

Definition of_Q (q : Q) : float :=
  (of_Z (Qnum q) / of_Z (Zpos (Qden q)))%float.

Definition is_neg_zero (a : float) : bool :=
  PrimFloat.is_zero a && PrimFloat.get_sign a.

(** ECMAScript [Math.max]: NaN if an argument is NaN, and [+0] is larger
    than [-0]. *)
Definition max (a b : float) : float :=
  if PrimFloat.is_nan a || PrimFloat.is_nan b then PrimFloat.nan
  else if PrimFloat.ltb a b then b
  else if PrimFloat.ltb b a then a
  else if is_neg_zero a then b else a.

(** ECMAScript [Math.min]: NaN if an argument is NaN, and [-0] is smaller
    than [+0]. *)
Definition min (a b : float) : float :=
  if PrimFloat.is_nan a || PrimFloat.is_nan b then PrimFloat.nan
  else if PrimFloat.ltb a b then a
  else if PrimFloat.ltb b a then b
  else if is_neg_zero b then b else a.

(** A number that is neither NaN nor an infinity. *)
Definition finite (a : float) : bool :=
  negb (PrimFloat.is_nan a) && negb (PrimFloat.is_infinity a).

(** The real value of a mantissa and a binary exponent. *)
Definition F2R (m e : Z) : R := (IZR m * powerRZ 2 e)%R.

(** A specification-level float that is not negative and at most [b]: a
    zero, or a positive finite number of value at most [b]. *)
Definition below (b : R) (f : spec_float) : Prop :=
  match f with
  | S754_zero _ => True
  | S754_finite false m e => (F2R (Zpos m) e <= b)%R
  | _ => False
  end.

(** The state of a right shift of [m] by [n] bits: the quotient, and round
    or sticky bits that are set only if a non-zero bit was shifted out. *)
Definition shifted (m : Z) (n : nat) (mrs : shr_record) : Prop :=
  shr_m mrs = (m / 2 ^ Z.of_nat n)%Z /\
  (shr_r mrs || shr_s mrs = true -> (m / 2 ^ Z.of_nat n * 2 ^ Z.of_nat n < m)%Z).

End F64.

#[export] Instance Float64 : Number float := {|
  lit := F64.of_Q;
  num_add := PrimFloat.add;
  num_sub := PrimFloat.sub;
  num_mul := PrimFloat.mul;
  num_ltb := PrimFloat.ltb;
  num_leb := PrimFloat.leb;
  strict_eq := PrimFloat.eqb;
  Math_sqrt := PrimFloat.sqrt;
  Math_max := F64.max;
  Math_min := F64.min
|}.

(** *** Exact arithmetic *)

Module Exact.

Definition ltb (a b : R) : bool := if Rlt_dec a b then true else false.
Definition leb (a b : R) : bool := if Rle_dec a b then true else false.
Definition eqb (a b : R) : bool := if Req_dec_T a b then true else false.

End Exact.

#[export] Instance Ideal : Number R := {|
  lit := Q2R;
  num_add := Rplus;
  num_sub := Rminus;
  num_mul := Rmult;
  num_ltb := Exact.ltb;
  num_leb := Exact.leb;
  strict_eq := Exact.eqb;
  Math_sqrt := R_sqrt.sqrt;
  Math_max := Rmax;
  Math_min := Rmin
|}.

(** ** Data model (types.ts) *)

Section Program.

Context {num : Type} `{Number num}.
Local Open Scope js_scope.

(** [Vector3]; a landmark of the detector (a [NormalizedLandmark]) is read
    through the same three fields. *)
Record Vector3 : Type := mkVector3 { x : num; y : num; z : num }.

Record FaceData : Type := mkFaceData {
  face_detected : bool;
  face_position : Vector3;
  tilt : num
}.

Record HandData : Type := mkHandData {
  hand_detected : bool;
  isPinching : bool;
  pinchDistance : num;
  hand_position : Vector3
}.

(** ** Inference driver (App.tsx) *)

Definition initialFaceData : FaceData :=
  {| face_detected := false;
     face_position := {| x := #0.5; y := #0.5; z := #0 |};
     tilt := #0 |}.

Definition initialHandData : HandData :=
  {| hand_detected := false;
     isPinching := false;
     pinchDistance := #0;
     hand_position := {| x := #0; y := #0; z := #0 |} |}.

(** What the two [detectForVideo] calls return: a list of faces (of hands),
    each a list of landmarks. *)
Record FaceLandmarkerResult : Type := { faceLandmarks : list (list Vector3) }.
Record HandLandmarkerResult : Type := { landmarks : list (list Vector3) }.

(** The video element as a tick sees it: its presentation timestamp, and
    what each detector answers for its current frame if it is asked. *)
Record Video : Type := {
  currentTime : num;
  faceLandmarker_detectForVideo : FaceLandmarkerResult;
  handLandmarker_detectForVideo : HandLandmarkerResult
}.

(** The mutable cells of [predictWebcam]: the local [lastVideoTime] and the
    two refs. *)
Record Cells : Type := mkCells {
  lastVideoTime : num;
  faceDataRef : FaceData;
  handDataRef : HandData
}.

Definition initialCells : Cells :=
  {| lastVideoTime := #(-1);
     faceDataRef := initialFaceData;
     handDataRef := initialHandData |}.

(** The calls a tick makes to its collaborators, in program order. *)
Inductive Call : Type :=
| FaceDetect
| HandDetect
| RequestAnimationFrame.

(** A tick either runs to its end or stops at a [TypeError] (a field read
    of [undefined], when a landmark list is too short); both leave the cells
    as written so far and the calls made so far. *)
Inductive Outcome : Type :=
| Completed (c : Cells) (calls : list Call)
| TypeError (c : Cells) (calls : list Call).

Definition cells_of (o : Outcome) : Cells :=
  match o with Completed c _ | TypeError c _ => c end.

Definition calls_of (o : Outcome) : list Call :=
  match o with Completed _ l | TypeError _ l => l end.

(** Lines 175-186: the value written to [faceDataRef.current]; [None] is
    the [TypeError] of [nose.x] when [landmarks[1]] is [undefined]. *)
Definition faceUpdate (faceResult : FaceLandmarkerResult) (current : FaceData)
  : option FaceData :=
  match faceLandmarks faceResult with
  | landmarks0 :: _ =>
      match nth_error landmarks0 1 with
      | Some nose =>
          Some {| face_detected := true;
                  face_position := {| x := x nose; y := y nose; z := z nose |};
                  tilt := #0 |}
      | None => None
      end
  | [] =>
      Some {| face_detected := false;
              face_position := face_position current;
              tilt := tilt current |}
  end.

(** Lines 190-212: the value written to [handDataRef.current]. *)
Definition handUpdate (handResult : HandLandmarkerResult) (current : HandData)
  : option HandData :=
  match landmarks handResult with
  | landmarks0 :: _ =>
      match nth_error landmarks0 4, nth_error landmarks0 8 with
      | Some thumbTip, Some indexTip =>
          let distance :=
            Math_sqrt (Math_pow2 (x thumbTip - x indexTip) +
                       Math_pow2 (y thumbTip - y indexTip)) in
          match nth_error landmarks0 0 with
          | Some handPos =>
              Some {| hand_detected := true;
                      isPinching := distance <? #0.05;
                      pinchDistance := distance;
                      hand_position :=
                        {| x := x handPos; y := y handPos; z := z handPos |} |}
          | None => None
          end
      | _, _ => None
      end
  | [] =>
      Some {| hand_detected := false;
              isPinching := isPinching current;
              pinchDistance := pinchDistance current;
              hand_position := hand_position current |}
  end.

(** One tick of [renderLoop]. *)
Definition renderLoop (video : Video) (c : Cells) : Outcome :=
  if currentTime video !== lastVideoTime c then
    let c1 := {| lastVideoTime := currentTime video;
                 faceDataRef := faceDataRef c;
                 handDataRef := handDataRef c |} in
    match faceUpdate (faceLandmarker_detectForVideo video) (faceDataRef c1) with
    | None => TypeError c1 [FaceDetect]
    | Some face =>
        let c2 := {| lastVideoTime := lastVideoTime c1;
                     faceDataRef := face;
                     handDataRef := handDataRef c1 |} in
        match handUpdate (handLandmarker_detectForVideo video) (handDataRef c2) with
        | None => TypeError c2 [FaceDetect; HandDetect]
        | Some hand =>
            Completed {| lastVideoTime := lastVideoTime c2;
                         faceDataRef := faceDataRef c2;
                         handDataRef := hand |}
                      [FaceDetect; HandDetect; RequestAnimationFrame]
        end
    end
  else Completed c [RequestAnimationFrame].

(** The loop over the successive states of the video: a tick that completes
    has rescheduled itself and the next tick runs; a [TypeError] ends the
    loop.  The result is the cells and the calls of all ticks that ran. *)
Fixpoint run (videos : list Video) (c : Cells) : Outcome :=
  match videos with
  | [] => Completed c []
  | video :: rest =>
      match renderLoop video c with
      | Completed c' calls =>
          match run rest c' with
          | Completed c'' calls' => Completed c'' (calls ++ calls')
          | TypeError c'' calls' => TypeError c'' (calls ++ calls')
          end
      | TypeError c' calls => TypeError c' calls
      end
  end.

(** ** Holographic globe (HolographicEarth.tsx) *)

(** What the callback touches of a three.js [Mesh]. *)
Record Mesh : Type := mkMesh { rotation_y : num; scale : Vector3 }.

(** three.js [Vector3.lerp(v, alpha)]:
    [this.x += (v.x - this.x) * alpha], and the same for [y] and [z]. *)
Definition lerp (this v : Vector3) (alpha : num) : Vector3 :=
  {| x := x this + (x v - x this) * alpha;
     y := y this + (y v - y this) * alpha;
     z := z this + (z v - z this) * alpha |}.

Definition baseScale : num := #2.5.

(** Lines 27-33: the value of [rotationSpeed] after the [if]. *)
Definition rotationSpeed (hand : HandData) : num :=
  let rotationSpeed := #0.2 in
  if hand_detected hand then
    let rotationFactor := (x (hand_position hand) - #0.5) * #10 in
    rotationSpeed + rotationFactor
  else rotationSpeed.

(** Line 46. *)
Definition pinchFactor (hand : HandData) : num :=
  Math_max #0 (Math_min #1 (pinchDistance hand * #10)).

(** Lines 40-48: the value of [targetScale] after the [if]. *)
Definition targetScale (hand : HandData) : num :=
  if hand_detected hand && isPinching hand then
    baseScale * (#0.5 + pinchFactor hand * #1.5)
  else baseScale.

(** The three refs of the component; a ref that is not mounted is [None]. *)
Record Globe : Type := mkGlobe {
  meshRef : option Mesh;
  atmosphereRef : option Mesh;
  coreRef : option Mesh
}.

Definition uniform (s : num) : Vector3 := {| x := s; y := s; z := s |}.

(** The callback given to [useFrame]. *)
Definition useFrame (hand : HandData) (delta : num) (g : Globe) : Globe :=
  match meshRef g, atmosphereRef g, coreRef g with
  | Some mesh, Some atmosphere, Some core =>
      let rotationSpeed := rotationSpeed hand in
      let targetScale := targetScale hand in
      {| meshRef := Some
           {| rotation_y := rotation_y mesh + rotationSpeed * delta;
              scale := lerp (scale mesh) (uniform targetScale) #0.1 |};
         atmosphereRef := Some
           {| rotation_y := rotation_y atmosphere + (rotationSpeed * #0.8) * delta;
              scale := lerp (scale atmosphere) (uniform (targetScale * #1.2)) #0.1 |};
         coreRef := Some
           {| rotation_y := rotation_y core - (rotationSpeed * #0.5) * delta;
              scale := lerp (scale core) (uniform (targetScale * #0.8)) #0.1 |} |}
  | _, _, _ => g
  end.

(** ** HUD panel (SmartHUD.tsx) *)

(** The style of the panel: the two pixel lengths of its [translate(..)]
    transform, if one was set, and its opacity. *)
Record Style : Type := mkStyle {
  transform : option (num * num);
  opacity : string
}.

Record Hud : Type := mkHud {
  containerRef : option Style;
  systemStatus : string
}.

Record Window : Type := { innerWidth : num; innerHeight : num }.

Definition initialHud (container : option Style) : Hud :=
  {| containerRef := container; systemStatus := "STANDBY" |}.

(** One call of [updateHUD], up to its rescheduling. *)
Definition updateHUD (face : FaceData) (window : Window) (hud : Hud) : Hud :=
  match face_detected face, containerRef hud with
  | true, Some current =>
      let x := (#1 - x (face_position face)) * innerWidth window in
      let y := y (face_position face) * innerHeight window in
      let xOffset := #180 in
      let yOffset := #(-50) in
      {| containerRef := Some {| transform := Some (x + xOffset, y + yOffset);
                                 opacity := "1" |};
         systemStatus := "ONLINE" |}
  | _, Some current =>
      {| containerRef := Some {| transform := transform current;
                                 opacity := "0.3" |};
         systemStatus := "SEARCHING..." |}
  | _, None => hud
  end.

End Program.

Arguments Vector3 : clear implicits.
Arguments FaceData : clear implicits.
Arguments HandData : clear implicits.
Arguments FaceLandmarkerResult : clear implicits.
Arguments HandLandmarkerResult : clear implicits.
Arguments Video : clear implicits.
Arguments Cells : clear implicits.
Arguments Outcome : clear implicits.
Arguments Mesh : clear implicits.
Arguments Globe : clear implicits.
Arguments Style : clear implicits.
Arguments Hud : clear implicits.
Arguments Window : clear implicits.

(** ** Vocabulary of the specification *)

Section Vocabulary.

Context {num : Type} `{Number num}.
Local Open Scope js_scope.

(** The planar Euclidean distance of two landmarks, [z] ignored. *)
Definition euclidean2 (p q : Vector3 num) : num :=
  Math_sqrt ((x p - x q) * (x p - x q) + (y p - y q) * (y p - y q)).

(** The base rotation rate, the rotation sensitivity and the base scale. *)
Definition rate_R0 : num := #0.2.
Definition gain_K : num := #10.
Definition scale_S0 : num := baseScale.

Definition Call_eqb (a b : Call) : bool :=
  match a, b with
  | FaceDetect, FaceDetect
  | HandDetect, HandDetect
  | RequestAnimationFrame, RequestAnimationFrame => true
  | _, _ => false
  end.

(** How many times a collaborator is called in a sequence of calls. *)
Definition invocations (k : Call) (calls : list Call) : nat :=
  List.length (filter (Call_eqb k) calls).

(** The detectors' contract, as far as the driver relies on it: a reported
    face has its nose-tip landmark (index 1), a reported hand its landmarks
    up to the index fingertip (index 8). *)
Definition faces_well_formed (video : Video num) : Prop :=
  Forall (fun face => 1 < List.length face)%nat
         (faceLandmarks (faceLandmarker_detectForVideo video)).

Definition hands_well_formed (video : Video num) : Prop :=
  Forall (fun hand => 8 < List.length hand)%nat
         (landmarks (handLandmarker_detectForVideo video)).

Definition no_face (video : Video num) : Prop :=
  faceLandmarks (faceLandmarker_detectForVideo video) = [].

Definition no_hand (video : Video num) : Prop :=
  landmarks (handLandmarker_detectForVideo video) = [].

(** The target scale as the specification words it: the base scale if the
    hand is not pinching, and [S0 * (0.5 + normalized * 1.5)] if it is. *)
Definition specified_targetScale (hand : HandData num) : num :=
  if isPinching hand then scale_S0 * (#0.5 + pinchFactor hand * #1.5)
  else scale_S0.

(** One smoothing step as the specification words it:
    [new = current + 0.1 * (target - current)]. *)
Definition smoothed (current target : num) : num :=
  current + #0.1 * (target - current).

(** The pinch flag, when set, is backed by a distance below the
    threshold. *)
Definition pinch_backed (hand : HandData num) : Prop :=
  isPinching hand = true -> (pinchDistance hand <? #0.05) = true.

End Vocabulary.


(** ** Sample inputs *)

Definition landmark (a b c : float) : Vector3 float := {| x := a; y := b; z := c |}.

(** A hand of 21 landmarks with the given wrist, thumb tip and index
    fingertip. *)
Definition hand_of (wrist thumbTip indexTip : Vector3 float) : list (Vector3 float) :=
  wrist :: repeat wrist 3 ++ thumbTip :: repeat wrist 3 ++ indexTip :: repeat wrist 12.

Definition pinched_hand : list (Vector3 float) :=
  hand_of (landmark 0.5 0.75 0) (landmark 0.5 0.5 0.25) (landmark 0.5 0.5 (-0.5)).

Definition open_hand : list (Vector3 float) :=
  hand_of (landmark 0.5 0.75 0) (landmark 0.25 0.5 0) (landmark 0.5 0.5 0).

Definition sample_face : list (Vector3 float) :=
  [landmark 0.25 0.25 0; landmark 0.2 0.3 0; landmark 0.5 0.5 0].

Definition frame (t : float) (faces hands : list (list (Vector3 float))) : Video float :=
  {| currentTime := t;
     faceLandmarker_detectForVideo := {| faceLandmarks := faces |};
     handLandmarker_detectForVideo := {| landmarks := hands |} |}.

(** The hand record after a pinch was seen and the hand was then lost. *)
Definition lost_pinch : HandData float :=
  handDataRef (cells_of (run [frame 0 [] [pinched_hand]; frame 1 [] []] initialCells)).

(** A hand record read by the globe: detected at [handX], with the given
    pinch flag and distance. *)
Definition hand_at (handX : float) (pinching : bool) (distance : float) : HandData float :=
  {| hand_detected := true; isPinching := pinching; pinchDistance := distance;
     hand_position := landmark handX 0.5 0 |}.

Definition exact_hand (distance : R) : HandData R :=
  {| hand_detected := true; isPinching := true; pinchDistance := distance;
     hand_position := {| x := 0.5%R; y := 0.5%R; z := 0%R |} |}.

(** The globe as three.js creates it: no rotation, unit scale. *)
Definition fresh_mesh : Mesh float :=
  {| rotation_y := 0%float; scale := landmark 1 1 1 |}.

Definition sample_globe : Globe float :=
  {| meshRef := Some fresh_mesh;
     atmosphereRef := Some fresh_mesh;
     coreRef := Some fresh_mesh |}.

Definition sample_window : Window float :=
  {| innerWidth := 1000%float; innerHeight := 800%float |}.

(** The panel as it is rendered first: no transform, transparent. *)
Definition sample_panel : Style float :=
  {| transform := None; opacity := "0" |}.

Definition face_at (detected : bool) (a b : float) : FaceData float :=
  {| face_detected := detected; face_position := landmark a b 0; tilt := 0%float |}.


(** ** Rolling logs and footer labels (SmartHUD.tsx) *)

(** The lines of the log panel; a line is a string, or [undefined] ([None])
    where the updater read past the end of the array. *)
Definition dummyLogs : list (option string) :=
  [Some "INITIALIZING PROTOCOL 7...";
   Some "CONNECTING TO SATELLITE ARRAY...";
   Some "BIOMETRIC SCAN: MATCH";
   Some "NEURAL LINK ESTABLISHED";
   Some "DOWNLOADING TERRAIN DATA...";
   Some "ATMOSPHERIC PRESSURE: STABLE";
   Some "TARGET ACQUIRED";
   Some "RENDERING PHYSICS ENGINE...";
   Some "QUANTUM ENCRYPTION: ACTIVE"]%string.

(** The updater given to [setLogs] every 800 ms:
    [[...prev.slice(1), prev[0]]]. *)
Definition rollLogs (prev : list (option string)) : list (option string) :=
  let newLogs := skipn 1 prev ++ [nth 0 prev None] in
  newLogs.

(** The two footer lines, read from [handDataRef.current] when the
    component renders. *)
Definition handTrackingLabel {num : Type} (hand : HandData num) : string :=
  if hand_detected hand then "ACTIVE" else "NO SIGNAL".

Definition gestureLabel {num : Type} (hand : HandData num) : string :=
  if isPinching hand then "PINCH DETECTED" else "IDLE".

(** The updates of the HUD over successive animation frames, each with the
    face record and the window it reads. *)
Definition updatesHUD {num : Type} `{Number num}
           (frames : list (FaceData num * Window num)) (hud : Hud num) : Hud num :=
  fold_left (fun h fw => updateHUD (fst fw) (snd fw) h) frames hud.

(** ** Start-up (visionService.ts, App.tsx) *)

Section Startup.

(** The collaborators' objects: the wasm fileset, the two landmarkers and
    the camera stream. *)
Variables (WasmFileset FaceLandmarker HandLandmarker MediaStream : Type).

(** How an awaited promise settles. *)
Inductive Settled (A : Type) : Type :=
| Fulfilled (value : A)
| Rejected.

Arguments Fulfilled {A} value.
Arguments Rejected {A}.

(** The two module-level variables of visionService.ts. *)
Record VisionService : Type := mkVisionService {
  faceLandmarker : option FaceLandmarker;
  handLandmarker : option HandLandmarker
}.

Definition initialVisionService : VisionService :=
  {| faceLandmarker := None; handLandmarker := None |}.

(** How the three awaited calls of [initializeVision] settle. *)
Record VisionEnv : Type := {
  forVisionTasks : Settled WasmFileset;
  FaceLandmarker_createFromOptions : WasmFileset -> Settled FaceLandmarker;
  HandLandmarker_createFromOptions : WasmFileset -> Settled HandLandmarker
}.

(** [initializeVision]: the module state it leaves and how its promise
    settles; each assignment happens when its [await] is fulfilled. *)
Definition initializeVision (env : VisionEnv) (s : VisionService)
  : VisionService * Settled (option FaceLandmarker * option HandLandmarker) :=
  match forVisionTasks env with
  | Rejected => (s, Rejected)
  | Fulfilled vision =>
      match FaceLandmarker_createFromOptions env vision with
      | Rejected => (s, Rejected)
      | Fulfilled face =>
          let s1 := {| faceLandmarker := Some face;
                       handLandmarker := handLandmarker s |} in
          match HandLandmarker_createFromOptions env vision with
          | Rejected => (s1, Rejected)
          | Fulfilled hand =>
              let s2 := {| faceLandmarker := faceLandmarker s1;
                           handLandmarker := Some hand |} in
              (s2, Fulfilled (faceLandmarker s2, handLandmarker s2))
          end
      end
  end.

Definition getFaceLandmarker (s : VisionService) : option FaceLandmarker :=
  faceLandmarker s.

Definition getHandLandmarker (s : VisionService) : option HandLandmarker :=
  handLandmarker s.

(** What [startApp] touches: the two React states, and of the video
    element its [srcObject] and whether [predictWebcam] listens to
    [loadeddata]. *)
Record AppStatus : Type := mkAppStatus {
  loading : bool;
  error : option string;
  srcObject : option MediaStream;
  loadeddata_listener : bool
}.

Definition initialAppStatus : AppStatus :=
  {| loading := true; error := None; srcObject := None;
     loadeddata_listener := false |}.

(** The environment of [startApp]: the vision environment, how
    [getUserMedia] settles and whether [videoRef.current] is set. *)
Record StartEnv : Type := {
  vision_env : VisionEnv;
  getUserMedia : Settled MediaStream;
  videoRef_current : bool
}.

Definition setError (message : string) (app : AppStatus) : AppStatus :=
  {| loading := loading app; error := Some message;
     srcObject := srcObject app; loadeddata_listener := loadeddata_listener app |}.

Definition setLoading (value : bool) (app : AppStatus) : AppStatus :=
  {| loading := value; error := error app;
     srcObject := srcObject app; loadeddata_listener := loadeddata_listener app |}.

(** [startApp] of App.tsx: a rejected [await] goes to the [catch]. *)
Definition startApp (env : StartEnv) (s : VisionService) (app : AppStatus)
  : VisionService * AppStatus :=
  match initializeVision (vision_env env) s with
  | (s', Rejected) =>
      (s', setError "Failed to initialize camera or AI models." app)
  | (s', Fulfilled _) =>
      match getUserMedia env with
      | Rejected =>
          (s', setError "Failed to initialize camera or AI models." app)
      | Fulfilled stream =>
          let app1 :=
            if videoRef_current env then
              {| loading := loading app; error := error app;
                 srcObject := Some stream; loadeddata_listener := true |}
            else app in
          (s', setLoading false app1)
      end
  end.

(** [predictWebcam]: [None] is the early return; otherwise the
    loop runs with a fresh [lastVideoTime = -1] over the successive states
    of the video, on the two refs. *)
Definition predictWebcam {num : Type} `{Number num}
           (video : option (list (Video num))) (s : VisionService)
           (face : FaceData num) (hand : HandData num) : option (Outcome num) :=
  match video, getFaceLandmarker s, getHandLandmarker s with
  | Some videos, Some _, Some _ =>
      Some (run videos {| lastVideoTime := lit (-1);
                          faceDataRef := face;
                          handDataRef := hand |})
  | _, _, _ => None
  end.

End Startup.

Arguments Fulfilled {A} value.
Arguments Rejected {A}.
Arguments faceLandmarker {FaceLandmarker HandLandmarker} v.
Arguments handLandmarker {FaceLandmarker HandLandmarker} v.
Arguments initialVisionService {FaceLandmarker HandLandmarker}.
Arguments initializeVision {WasmFileset FaceLandmarker HandLandmarker} env s.
Arguments getFaceLandmarker {FaceLandmarker HandLandmarker} s.
Arguments getHandLandmarker {FaceLandmarker HandLandmarker} s.
Arguments loading {MediaStream} a.
Arguments error {MediaStream} a.
Arguments srcObject {MediaStream} a.
Arguments loadeddata_listener {MediaStream} a.
Arguments initialAppStatus {MediaStream}.
Arguments startApp {WasmFileset FaceLandmarker HandLandmarker MediaStream} env s app.
Arguments predictWebcam {FaceLandmarker HandLandmarker num H} video s face hand.
Arguments forVisionTasks {WasmFileset FaceLandmarker HandLandmarker} v.
Arguments FaceLandmarker_createFromOptions {WasmFileset FaceLandmarker HandLandmarker} v _.
Arguments HandLandmarker_createFromOptions {WasmFileset FaceLandmarker HandLandmarker} v _.
Arguments vision_env {WasmFileset FaceLandmarker HandLandmarker MediaStream} s.
Arguments getUserMedia {WasmFileset FaceLandmarker HandLandmarker MediaStream} s.
Arguments videoRef_current {WasmFileset FaceLandmarker HandLandmarker MediaStream} s.

(** A hand landmarker is installed only next to a face landmarker. *)
Definition face_first {FaceLandmarker HandLandmarker : Type}
           (s : VisionService FaceLandmarker HandLandmarker) : Prop :=
  handLandmarker s <> None -> faceLandmarker s <> None.

(** ** Vocabulary for the globe over several frames *)

(** [after] is [before] moved toward the uniform [target] with [0.9 ^ n] of
    the distance left, in each component. *)
Definition approached (n : nat) (target : R) (before after : Vector3 R) : Prop :=
  (target - x after = 0.9 ^ n * (target - x before) /\
   target - y after = 0.9 ^ n * (target - y before) /\
   target - z after = 0.9 ^ n * (target - z before))%R.

(** ** Vocabulary for the sign of binary64 numbers *)

(** A specification-level float that is not above zero: a zero, a negative
    number, minus infinity, or NaN. *)
Definition not_positive (f : spec_float) : Prop :=
  match f with
  | S754_zero _ | S754_infinity true | S754_finite true _ _ | S754_nan => True
  | _ => False
  end.

(** ** More sample inputs *)

(** A face that lacks its nose tip, and a hand that lacks its fingertips. *)
Definition short_face : list (Vector3 float) := [landmark 0.25 0.25 0].

Definition short_hand : list (Vector3 float) :=
  [landmark 0.5 0.75 0; landmark 0.5 0.5 0; landmark 0.5 0.5 0].

Definition exact_mesh : Mesh R :=
  {| rotation_y := 0%R; scale := {| x := 1%R; y := 1%R; z := 1%R |} |}.

Definition exact_globe : Globe R :=
  {| meshRef := Some exact_mesh; atmosphereRef := Some exact_mesh;
     coreRef := Some exact_mesh |}.

Definition exact_face (a b : R) : FaceData R :=
  {| face_detected := true; face_position := {| x := a; y := b; z := 0%R |};
     tilt := 0%R |}.

Definition exact_window : Window R :=
  {| innerWidth := 1000%R; innerHeight := 800%R |}.

Definition exact_panel : Style R := {| transform := None; opacity := "0" |}.

(** A start-up environment in which everything is fulfilled, and one in
    which the hand landmarker fails. *)
Definition good_vision : VisionEnv unit nat nat :=
  {| forVisionTasks := Fulfilled tt;
     FaceLandmarker_createFromOptions := fun _ => Fulfilled 1%nat;
     HandLandmarker_createFromOptions := fun _ => Fulfilled 2%nat |}.

Definition handless_vision : VisionEnv unit nat nat :=
  {| forVisionTasks := Fulfilled tt;
     FaceLandmarker_createFromOptions := fun _ => Fulfilled 3%nat;
     HandLandmarker_createFromOptions := fun _ => Rejected |}.

Definition good_start : StartEnv unit nat nat unit :=
  {| vision_env := good_vision; getUserMedia := Fulfilled tt;
     videoRef_current := true |}.
(** ** Facts of binary64 arithmetic *)

Module F64Facts.

Local Open Scope float_scope.

(** The decimal literals of the sources denote the doubles nearest to
    them. *)
Lemma literals :
  (lit 0 = 0 /\ lit 1 = 1 /\ lit (-1) = -1 /\ lit 10 = 10 /\ lit 180 = 180 /\
   lit (-50) = -50 /\ lit 0.5 = 0.5 /\ lit 1.5 = 1.5 /\ lit 2.5 = 2.5) /\
  (lit 0.05 = 0.05 /\ lit 0.1 = 0.1 /\ lit 0.2 = 0.2 /\ lit 0.8 = 0.8 /\
   lit 1.2 = 1.2).
Proof. repeat split; reflexivity. Qed.

Lemma SFcompare_antisym (a b : spec_float) :
  SFcompare b a = option_map CompOpp (SFcompare a b).
Proof.
  destruct a as [sa|sa| |sa ma ea], b as [sb|sb| |sb mb eb]; cbn [SFcompare option_map];
    try reflexivity; try (destruct sa; reflexivity); try (destruct sb; reflexivity);
    try (destruct sa, sb; reflexivity).
  destruct sa, sb; try reflexivity; f_equal;
    rewrite (Z.compare_antisym ea eb);
    destruct (ea ?= eb)%Z; cbn [CompOpp]; try reflexivity;
    change (Pos.compare_cont Eq mb ma) with (Pos.compare mb ma);
    change (Pos.compare_cont Eq ma mb) with (Pos.compare ma mb);
    rewrite (Pos.compare_antisym ma mb); try reflexivity.
Qed.

(** [a <= b] excludes [b < a]. *)
Lemma leb_ltb (a b : float) : (a <=? b) = true -> (b <? a) = false.
Proof.
  rewrite leb_spec, ltb_spec. unfold SFleb, SFltb.
  rewrite (SFcompare_antisym (Prim2SF a) (Prim2SF b)).
  destruct (SFcompare (Prim2SF a) (Prim2SF b)) as [[ | | ]|]; cbn; congruence.
Qed.

Lemma finite_cases (a : float) :
  F64.finite a = true ->
  (exists s, Prim2SF a = S754_zero s) \/
  (exists s m e, Prim2SF a = S754_finite s m e).
Proof.
  unfold F64.finite, is_nan, is_infinity.
  rewrite !FloatAxioms.eqb_spec, abs_spec.
  change (Prim2SF infinity) with (S754_infinity false).
  destruct (Prim2SF a) as [s|s| |s m e]; cbn; try discriminate; eauto.
  destruct s; discriminate.
Qed.

(** A finite number minus itself is [+0]. *)
Lemma sub_diag (a : float) : F64.finite a = true -> a - a = 0.
Proof.
  intros Hfin. apply Prim2SF_inj. rewrite sub_spec.
  change (Prim2SF 0) with (S754_zero false).
  destruct (finite_cases a Hfin) as [[s ->]|(s & m & e & ->)].
  - destruct s; reflexivity.
  - unfold SF64sub, SFsub. rewrite Z.sub_diag. reflexivity.
Qed.

Lemma SFadd_opp (a b : spec_float) :
  SFadd prec emax a (SFopp b) = SFsub prec emax a b.
Proof.
  destruct a as [sa|sa| |sa ma ea], b as [sb|sb| |sb mb eb]; cbn [SFadd SFsub SFopp];
    try reflexivity; destruct sa, sb; reflexivity.
Qed.

(** Adding the opposite is subtracting. *)
Lemma add_opp (a b : float) : a + (- b) = a - b.
Proof.
  apply Prim2SF_inj. rewrite add_spec, sub_spec, opp_spec. apply SFadd_opp.
Qed.

Lemma mul_comm (a b : float) : a * b = b * a.
Proof.
  apply Prim2SF_inj. rewrite !mul_spec. unfold SF64mul.
  destruct (Prim2SF a) as [sa|sa| |sa ma ea], (Prim2SF b) as [sb|sb| |sb mb eb];
    cbn [SFmul]; try reflexivity; try (rewrite xorb_comm; reflexivity).
  rewrite xorb_comm, Pos.mul_comm, Z.add_comm. reflexivity.
Qed.

End F64Facts.

(** ** The inference driver *)

Section Driver.

Context {num : Type} `{Number num}.
Local Open Scope js_scope.

Lemma nth_error_in_range {A} (l : list A) (n : nat) :
  (n < List.length l)%nat -> exists a, nth_error l n = Some a.
Proof.
  intros Hlt. destruct (nth_error l n) as [a|] eqn:E; [eauto|].
  apply nth_error_None in E. exfalso. apply (Nat.lt_irrefl n).
  eapply Nat.lt_le_trans; eassumption.
Qed.

(** Zero faces: only [detected] changes. *)
Lemma faceUpdate_none (r : FaceLandmarkerResult num) (current : FaceData num) :
  faceLandmarks r = [] ->
  faceUpdate r current =
    Some {| face_detected := false;
            face_position := face_position current;
            tilt := tilt current |}.
Proof. intros E. unfold faceUpdate. rewrite E. reflexivity. Qed.

Lemma faceUpdate_some (r : FaceLandmarkerResult num) (current : FaceData num)
      (face : list (Vector3 num)) (others : list (list (Vector3 num))) (nose : Vector3 num) :
  faceLandmarks r = face :: others -> nth_error face 1 = Some nose ->
  faceUpdate r current =
    Some {| face_detected := true;
            face_position := {| x := x nose; y := y nose; z := z nose |};
            tilt := #0 |}.
Proof. intros E N. unfold faceUpdate. rewrite E, N. reflexivity. Qed.

Lemma handUpdate_none (r : HandLandmarkerResult num) (current : HandData num) :
  landmarks r = [] ->
  handUpdate r current =
    Some {| hand_detected := false;
            isPinching := isPinching current;
            pinchDistance := pinchDistance current;
            hand_position := hand_position current |}.
Proof. intros E. unfold handUpdate. rewrite E. reflexivity. Qed.

Lemma handUpdate_some (r : HandLandmarkerResult num) (current : HandData num)
      (hand : list (Vector3 num)) (others : list (list (Vector3 num)))
      (handPos thumbTip indexTip : Vector3 num) :
  landmarks r = hand :: others ->
  nth_error hand 0 = Some handPos ->
  nth_error hand 4 = Some thumbTip ->
  nth_error hand 8 = Some indexTip ->
  handUpdate r current =
    Some {| hand_detected := true;
            isPinching := euclidean2 thumbTip indexTip <? #0.05;
            pinchDistance := euclidean2 thumbTip indexTip;
            hand_position := {| x := x handPos; y := y handPos; z := z handPos |} |}.
Proof.
  intros E N0 N4 N8. unfold handUpdate. rewrite E, N4, N8, N0. reflexivity.
Qed.

(** The face part of a tick cannot fail on well-formed detector output, nor
    can the hand part. *)
Lemma faceUpdate_total (video : Video num) (current : FaceData num) :
  faces_well_formed video ->
  exists face, faceUpdate (faceLandmarker_detectForVideo video) current = Some face.
Proof.
  unfold faces_well_formed, faceUpdate. intros W.
  destruct (faceLandmarks (faceLandmarker_detectForVideo video)) as [|face others]; [eauto|].
  inversion W as [|? ? Hlen _]; subst.
  destruct (nth_error_in_range face 1 Hlen) as [nose ->]. eauto.
Qed.

Lemma handUpdate_total (video : Video num) (current : HandData num) :
  hands_well_formed video ->
  exists hand, handUpdate (handLandmarker_detectForVideo video) current = Some hand.
Proof.
  unfold hands_well_formed, handUpdate. intros W.
  destruct (landmarks (handLandmarker_detectForVideo video)) as [|hand others]; [eauto|].
  inversion W as [|? ? Hlen _]; subst.
  destruct (nth_error_in_range hand 4) as [thumbTip ->];
    [eapply Nat.lt_trans; [|exact Hlen]; repeat constructor|].
  destruct (nth_error_in_range hand 8 Hlen) as [indexTip ->].
  destruct (nth_error_in_range hand 0) as [handPos ->];
    [eapply Nat.lt_trans; [|exact Hlen]; repeat constructor|].
  eauto.
Qed.

(** The three ways a tick ends when the timestamp has changed. *)
Lemma renderLoop_changed (video : Video num) (c : Cells num) :
  (currentTime video === lastVideoTime c) = false ->
  let c1 := {| lastVideoTime := currentTime video;
               faceDataRef := faceDataRef c;
               handDataRef := handDataRef c |} in
  match faceUpdate (faceLandmarker_detectForVideo video) (faceDataRef c) with
  | None => renderLoop video c = TypeError c1 [FaceDetect]
  | Some face =>
      let c2 := {| lastVideoTime := currentTime video;
                   faceDataRef := face;
                   handDataRef := handDataRef c |} in
      match handUpdate (handLandmarker_detectForVideo video) (handDataRef c) with
      | None => renderLoop video c = TypeError c2 [FaceDetect; HandDetect]
      | Some hand =>
          renderLoop video c =
            Completed {| lastVideoTime := currentTime video;
                         faceDataRef := face;
                         handDataRef := hand |}
                      [FaceDetect; HandDetect; RequestAnimationFrame]
      end
  end.
Proof.
  intros E. unfold renderLoop. rewrite E. cbn [negb faceDataRef handDataRef lastVideoTime].
  destruct (faceUpdate _ _); [|reflexivity].
  cbn [faceDataRef handDataRef lastVideoTime].
  destruct (handUpdate _ _); reflexivity.
Qed.

Lemma renderLoop_unchanged (video : Video num) (c : Cells num) :
  (currentTime video === lastVideoTime c) = true ->
  renderLoop video c = Completed c [RequestAnimationFrame].
Proof. intros E. unfold renderLoop. rewrite E. reflexivity. Qed.

End Driver.

(** ** Rounding to nearest does not pass a bound on its grid *)

Module F64Rounding.

Import F64.

Local Open Scope Z_scope.

(** Iterating [n] times then [p] more. *)
Lemma iter_pos_invariant {A} (f : A -> A) (P : nat -> A -> Prop) :
  (forall n a, P n a -> P (S n) (f a)) ->
  forall p n a, P n a -> P (n + Pos.to_nat p)%nat (iter_pos f p a).
Proof.
  intros step. induction p as [p IH|p IH|]; intros n a Pa; cbn [iter_pos].
  - rewrite Pos2Nat.inj_xI.
    replace (n + S (2 * Pos.to_nat p))%nat with (S n + Pos.to_nat p + Pos.to_nat p)%nat by lia.
    apply IH, IH, step, Pa.
  - rewrite Pos2Nat.inj_xO.
    replace (n + 2 * Pos.to_nat p)%nat with (n + Pos.to_nat p + Pos.to_nat p)%nat by lia.
    apply IH, IH, Pa.
  - replace (n + Pos.to_nat 1)%nat with (S n) by lia. apply step, Pa.
Qed.


Lemma shr_1_quotient (q : Z) (r s : bool) :
  0 <= q ->
  shr_m (shr_1 {| shr_m := q; shr_r := r; shr_s := s |}) = q / 2 /\
  (shr_r (shr_1 {| shr_m := q; shr_r := r; shr_s := s |}) = true -> 2 * (q / 2) < q) /\
  shr_s (shr_1 {| shr_m := q; shr_r := r; shr_s := s |}) = r || s.
Proof.
  intros Hq. destruct q as [|[p|p|]|p]; cbn [shr_1 shr_m shr_r shr_s]; try lia.
  - repeat split; intros; try discriminate; reflexivity.
  - rewrite Pos2Z.inj_xI. replace ((2 * Z.pos p + 1) / 2) with (Z.pos p).
    + repeat split; intros; lia.
    + apply Z.div_unique with 1; lia.
  - rewrite Pos2Z.inj_xO. replace (2 * Z.pos p / 2) with (Z.pos p).
    + repeat split; intros; try discriminate; lia.
    + apply Z.div_unique with 0; lia.
  - repeat split; intros; try reflexivity; lia.
Qed.

Lemma shifted_step (m : Z) (n : nat) (mrs : shr_record) :
  0 <= m -> shifted m n mrs -> shifted m (S n) (shr_1 mrs).
Proof.
  intros Hm [Q RS]. destruct mrs as [q r s]. cbn [shr_m shr_r shr_s] in *.
  assert (0 < 2 ^ Z.of_nat n) as Hp by (apply Z.pow_pos_nonneg; lia).
  assert (0 <= q) as Hq by (subst q; apply Z.div_pos; lia).
  destruct (shr_1_quotient q r s Hq) as (Q' & R' & S').
  assert (2 ^ Z.of_nat (S n) = 2 ^ Z.of_nat n * 2) as E
      by (rewrite Nat2Z.inj_succ, Z.pow_succ_r by lia; ring).
  assert (m / 2 ^ Z.of_nat (S n) = q / 2) as D
      by (rewrite E, <- Z.div_div by lia; subst q; reflexivity).
  split.
  - rewrite Q', D. reflexivity.
  - rewrite D, E, S'. intros B.
    assert (q * 2 ^ Z.of_nat n <= m) as Hfl
        by (subst q; rewrite Z.mul_comm; apply Z.mul_div_le; lia).
    assert (2 * (q / 2) <= q) as Hh by (apply Z.mul_div_le; lia).
    apply orb_true_iff in B. destruct B as [B|B].
    + specialize (R' B). nia.
    + specialize (RS B). subst q. nia.
Qed.



Lemma powerRZ_2_pos (e : Z) : (0 < powerRZ 2 e)%R.
Proof. apply powerRZ_lt. lra. Qed.

Lemma powerRZ_2_add (a b : Z) : (powerRZ 2 (a + b) = powerRZ 2 a * powerRZ 2 b)%R.
Proof. apply powerRZ_add. lra. Qed.

Lemma IZR_pow2 (k : Z) : 0 <= k -> IZR (2 ^ k) = powerRZ 2 k.
Proof.
  intros Hk. rewrite <- (Z2Nat.id k Hk), <- pow_IZR, <- pow_powerRZ. reflexivity.
Qed.

Lemma F2R_shift (m e k : Z) : 0 <= k -> F2R (m * 2 ^ k) e = F2R m (e + k).
Proof.
  intros Hk. unfold F2R. rewrite mult_IZR, (IZR_pow2 k Hk), powerRZ_2_add. ring.
Qed.

(** Comparing two values on the finer of their grids. *)
Lemma F2R_le (m e B K : Z) :
  e <= K -> (F2R m e <= F2R B K)%R <-> m <= B * 2 ^ (K - e).
Proof.
  intros HK. replace (F2R B K) with (F2R (B * 2 ^ (K - e)) e)
    by (rewrite F2R_shift by lia; f_equal; lia).
  unfold F2R. pose proof (powerRZ_2_pos e) as Hp. split; intros Hle.
  - apply le_IZR. apply Rmult_le_reg_r with (powerRZ 2 e); assumption.
  - apply Rmult_le_compat_r; [lra|]. apply IZR_le. assumption.
Qed.

Lemma powerRZ_2_le (a b : Z) : a <= b -> (powerRZ 2 a <= powerRZ 2 b)%R.
Proof.
  intros Hab. replace b with (a + (b - a)) by lia. rewrite powerRZ_2_add.
  rewrite <- (IZR_pow2 (b - a)) by lia.
  assert (1 <= 2 ^ (b - a)) as H1 by (apply Z.lt_pred_le, Z.pow_pos_nonneg; lia).
  apply IZR_le in H1. pose proof (powerRZ_2_pos a). nra.
Qed.

Lemma powerRZ_2_lt_inv (a b : Z) : (powerRZ 2 a < powerRZ 2 b)%R -> a < b.
Proof.
  intros Hlt. destruct (Z_lt_le_dec a b) as [|Hba]; [assumption|].
  apply powerRZ_2_le in Hba. lra.
Qed.

Lemma shr_exact_spec (m e n : Z) :
  0 <= m ->
  exists k : nat,
    Z.of_nat k = Z.max 0 n /\
    snd (shr {| shr_m := m; shr_r := false; shr_s := false |} e n) = e + Z.of_nat k /\
    shifted m k (fst (shr {| shr_m := m; shr_r := false; shr_s := false |} e n)).
Proof.
  intros Hm.
  assert (shifted m 0 {| shr_m := m; shr_r := false; shr_s := false |}) as S0.
  { split; cbn [shr_m shr_r shr_s orb Z.of_nat]; [|discriminate].
    rewrite Z.pow_0_r, Z.div_1_r. reflexivity. }
  destruct n as [|p|p]; cbn [shr fst snd].
  - exists 0%nat. split; [lia|]. split; [lia|exact S0].
  - exists (Pos.to_nat p). rewrite positive_nat_Z. split; [lia|]. split; [lia|].
    apply (iter_pos_invariant shr_1 (shifted m)
             (fun n a => shifted_step m n a Hm) p 0%nat _ S0).
  - exists 0%nat. split; [lia|]. split; [lia|exact S0].
Qed.

Lemma round_nearest_even_spec (mrs : shr_record) :
  shr_m mrs <= round_nearest_even (shr_m mrs) (loc_of_shr_record mrs) <= shr_m mrs + 1 /\
  (round_nearest_even (shr_m mrs) (loc_of_shr_record mrs) = shr_m mrs + 1 ->
   shr_r mrs || shr_s mrs = true).
Proof.
  destruct mrs as [q [|] [|]]; cbn [shr_m shr_r shr_s loc_of_shr_record round_nearest_even orb];
    try destruct (Z.even q); split; auto; lia.
Qed.

(** Rounding after the shift never passes the next multiple of the grid
    step: [(rounded - 1) * 2^k < m]. *)
Lemma shift_round_spec (m e n : Z) :
  0 <= m ->
  let mrs := fst (shr {| shr_m := m; shr_r := false; shr_s := false |} e n) in
  let mm := round_nearest_even (shr_m mrs) (loc_of_shr_record mrs) in
  exists k : nat,
    Z.of_nat k = Z.max 0 n /\
    snd (shr {| shr_m := m; shr_r := false; shr_s := false |} e n) = e + Z.of_nat k /\
    0 <= mm /\ (mm - 1) * 2 ^ Z.of_nat k < m.
Proof.
  intros Hm mrs mm. destruct (shr_exact_spec m e n Hm) as (k & Hk & He & Q & RS).
  fold mrs in Q, RS. exists k. split; [exact Hk|]. split; [exact He|].
  destruct (round_nearest_even_spec mrs) as ([Lo Hi] & Up). fold mm in Lo, Hi, Up.
  assert (0 < 2 ^ Z.of_nat k) as Hp by (apply Z.pow_pos_nonneg; lia).
  assert (0 <= shr_m mrs) as Hq by (rewrite Q; apply Z.div_pos; lia).
  assert (shr_m mrs * 2 ^ Z.of_nat k <= m) as Hfl
      by (rewrite Q, Z.mul_comm; apply Z.mul_div_le; lia).
  split; [lia|].
  destruct (Z.eq_dec mm (shr_m mrs + 1)) as [E|NE].
  - specialize (RS (Up E)). rewrite <- Q in RS. rewrite E. replace (shr_m mrs + 1 - 1) with (shr_m mrs) by lia. exact RS.
  - assert (mm = shr_m mrs) as -> by lia. nia.
Qed.



Lemma F2R_mono (m1 m2 e : Z) : m1 <= m2 -> (F2R m1 e <= F2R m2 e)%R.
Proof.
  intros Hle. unfold F2R. apply Rmult_le_compat_r; [|apply IZR_le; assumption].
  pose proof (powerRZ_2_pos e). lra.
Qed.

(** Rounding to nearest does not pass a bound that lies on the grid of the
    result. *)
Lemma binary_round_aux_below (m : positive) (e B K : Z) :
  (F2R (Zpos m) e <= F2R B K)%R ->
  e <= K -> fexp prec emax (Zdigits2 (Zpos m) + e) <= K ->
  (F2R B K < powerRZ 2 (emax - prec + 1))%R ->
  below (F2R B K) (binary_round_aux prec emax false (Zpos m) e loc_Exact).
Proof.
  intros Hv HeK HfK Hov.
  unfold binary_round_aux, shr_fexp. cbn [shr_record_of_loc].
  set (n1 := fexp prec emax (Zdigits2 (Z.pos m) + e) - e).
  destruct (shift_round_spec (Zpos m) e n1 (Pos2Z.is_nonneg m))
    as (k1 & Hk1 & He1 & Hmm & Hup).
  destruct (shr {| shr_m := Z.pos m; shr_r := false; shr_s := false |} e n1)
    as [mrs1 e1]. cbn [fst snd] in *.
  set (mm := round_nearest_even (shr_m mrs1) (loc_of_shr_record mrs1)) in *.
  assert (e1 <= K) as He1K by lia.
  assert (mm <= B * 2 ^ (K - e1)) as Hmm_le.
  { apply (F2R_le (Zpos m) e B K HeK) in Hv.
    replace (K - e) with ((K - e1) + Z.of_nat k1) in Hv by lia.
    rewrite Z.pow_add_r, Z.mul_assoc in Hv by lia.
    assert (0 < 2 ^ Z.of_nat k1) by (apply Z.pow_pos_nonneg; lia). nia. }
  set (n2 := fexp prec emax (Zdigits2 mm + e1) - e1).
  destruct (shr_exact_spec mm e1 n2 Hmm) as (k2 & Hk2 & He2 & Q2 & _).
  destruct (shr {| shr_m := mm; shr_r := false; shr_s := false |} e1 n2)
    as [mrs2 e2]. cbn [fst snd] in *.
  assert (0 < 2 ^ Z.of_nat k2) as Hp2 by (apply Z.pow_pos_nonneg; lia).
  assert (0 <= shr_m mrs2) as Hq2 by (rewrite Q2; apply Z.div_pos; lia).
  assert (shr_m mrs2 * 2 ^ Z.of_nat k2 <= mm) as Hfl
      by (rewrite Q2, Z.mul_comm; apply Z.mul_div_le; lia).
  assert (F2R (shr_m mrs2) e2 <= F2R B K)%R as Hres.
  { rewrite He2, <- F2R_shift by lia.
    apply Rle_trans with (F2R (B * 2 ^ (K - e1)) e1).
    - apply F2R_mono. lia.
    - rewrite F2R_shift by lia. replace (e1 + (K - e1)) with K by lia. apply Rle_refl. }
  destruct (shr_m mrs2) as [|p|p]; [exact I| |lia].
  assert (e2 < emax - prec + 1) as Hfin.
  { apply powerRZ_2_lt_inv. eapply Rle_lt_trans; [|exact Hov].
    eapply Rle_trans; [|exact Hres]. unfold F2R.
    assert (1 <= IZR (Z.pos p))%R by (apply IZR_le; lia).
    pose proof (powerRZ_2_pos e2). nra. }
  replace (e2 <=? emax - prec) with true by (symmetry; apply Z.leb_le; lia).
  exact Hres.
Qed.


Lemma digits2_pos_spec (m : positive) :
  2 ^ (Zpos (digits2_pos m) - 1) <= Zpos m < 2 ^ Zpos (digits2_pos m).
Proof.
  induction m as [m IH|m IH|]; cbn [digits2_pos].
  - rewrite Pos2Z.inj_succ, (Pos2Z.inj_xI m).
    replace (Z.succ (Z.pos (digits2_pos m)) - 1) with (Z.succ (Z.pos (digits2_pos m) - 1)) by lia.
    rewrite !Z.pow_succ_r by lia.
    generalize dependent (2 ^ (Z.pos (digits2_pos m) - 1)).
    generalize (2 ^ Z.pos (digits2_pos m)). intros; lia.
  - rewrite Pos2Z.inj_succ, (Pos2Z.inj_xO m).
    replace (Z.succ (Z.pos (digits2_pos m)) - 1) with (Z.succ (Z.pos (digits2_pos m) - 1)) by lia.
    rewrite !Z.pow_succ_r by lia.
    generalize dependent (2 ^ (Z.pos (digits2_pos m) - 1)).
    generalize (2 ^ Z.pos (digits2_pos m)). intros; lia.
  - cbn. lia.
Qed.

Lemma powerRZ_2_le_inv (a b : Z) : (powerRZ 2 a <= powerRZ 2 b)%R -> a <= b.
Proof.
  intros Hle. destruct (Z_le_gt_dec a b) as [|Hba]; [assumption|].
  assert (b + 1 <= a) as Hs by lia. apply powerRZ_2_le in Hs.
  rewrite powerRZ_2_add in Hs. change (powerRZ 2 1) with (2 * 1)%R in Hs.
  pose proof (powerRZ_2_pos b). lra.
Qed.

(** A positive value of at most [2^j] has few digits above its exponent. *)
Lemma digits_bound (m : positive) (e j : Z) :
  (F2R (Zpos m) e <= powerRZ 2 j)%R ->
  Zdigits2 (Zpos m) + e <= j + 1.
Proof.
  intros Hv. cbn [Zdigits2]. destruct (digits2_pos_spec m) as [Lo _].
  assert (Zpos (digits2_pos m) - 1 + e <= j); [|lia].
  apply powerRZ_2_le_inv. eapply Rle_trans; [|exact Hv].
  rewrite powerRZ_2_add, <- IZR_pow2 by lia. apply F2R_mono. exact Lo.
Qed.

(** The exponent of a valid binary64 number of value at most [2^j]. *)
Lemma valid_exponent (s : bool) (m : positive) (e j : Z) :
  valid_binary (S754_finite s m e) = true ->
  (F2R (Zpos m) e <= powerRZ 2 j)%R ->
  e <= Z.max (j - 52) (-1074).
Proof.
  intros V Hv. apply digits_bound in Hv. cbn [Zdigits2] in Hv.
  cbn [SpecFloat.valid_binary] in V. unfold bounded, canonical_mantissa in V.
  apply andb_prop in V. destruct V as [C _]. apply Z.eqb_eq in C.
  unfold fexp, emin, prec, emax in C. lia.
Qed.

(** A valid binary64 number above the subnormal exponent has 53 digits. *)
Lemma valid_normal (s : bool) (m : positive) (e : Z) :
  valid_binary (S754_finite s m e) = true ->
  Zpos m < 2 ^ 53 /\ -1074 <= e /\ (-1074 < e -> 2 ^ 52 <= Zpos m).
Proof.
  intros V. cbn [SpecFloat.valid_binary] in V. unfold bounded, canonical_mantissa in V.
  apply andb_prop in V. destruct V as [C _]. apply Z.eqb_eq in C.
  unfold fexp, emin, prec, emax in C.
  destruct (digits2_pos_spec m) as [Lo Hi]. split.
  - eapply Z.lt_le_trans; [exact Hi|]. apply Z.pow_le_mono_r; lia.
  - split; [lia|]. intros He. replace (Z.pos (digits2_pos m)) with 53 in Lo by lia. exact Lo.
Qed.


Lemma powerRZ_2_lt (a b : Z) : a < b -> (powerRZ 2 a < powerRZ 2 b)%R.
Proof.
  intros Hab. assert (a + 1 <= b) as Hs by lia. apply powerRZ_2_le in Hs.
  rewrite powerRZ_2_add in Hs. change (powerRZ 2 1) with (2 * 1)%R in Hs.
  pose proof (powerRZ_2_pos a). lra.
Qed.

Lemma F2R_mul (m1 e1 m2 e2 : Z) :
  F2R (m1 * m2) (e1 + e2) = (F2R m1 e1 * F2R m2 e2)%R.
Proof. unfold F2R. rewrite mult_IZR, powerRZ_2_add. ring. Qed.

Lemma F2R_add (m1 m2 e : Z) : F2R (m1 + m2) e = (F2R m1 e + F2R m2 e)%R.
Proof. unfold F2R. rewrite plus_IZR. ring. Qed.

Lemma F2R_pos (m : positive) (e : Z) : (0 < F2R (Zpos m) e)%R.
Proof.
  unfold F2R. apply Rmult_lt_0_compat; [|apply powerRZ_2_pos].
  apply IZR_lt. lia.
Qed.

Lemma fexp_bound (m : positive) (e j K : Z) :
  (F2R (Zpos m) e <= powerRZ 2 j)%R ->
  Z.max (j - 52) (-1074) <= K ->
  fexp prec emax (Zdigits2 (Zpos m) + e) <= K.
Proof.
  intros Hv HK. apply digits_bound in Hv. unfold fexp, emin, prec, emax. lia.
Qed.

(** The product of a number below [a] and a positive constant. *)
Lemma mul_below (x c : float) (a : R) (mc : positive) (ec j B K j' : Z) :
  below a (Prim2SF x) -> (a <= powerRZ 2 j)%R ->
  Prim2SF c = S754_finite false mc ec ->
  (a * F2R (Zpos mc) ec <= F2R B K)%R -> (F2R B K <= powerRZ 2 j')%R ->
  Z.max (j - 52) (-1074) + ec <= K -> Z.max (j' - 52) (-1074) <= K ->
  j' <= 971 ->
  below (F2R B K) (Prim2SF (x * c)).
Proof.
  intros Hx Ha Hc Hprod HB HeK HfK Hov. rewrite mul_spec, Hc. unfold SF64mul.
  pose proof (Prim2SF_valid x) as V.
  destruct (Prim2SF x) as [s|s| |[|] mx ex]; cbn [below] in Hx; try contradiction.
  - exact I.
  - cbn [SFmul xorb].
    assert (F2R (Zpos mx) ex <= powerRZ 2 j)%R as Hxj by lra.
    pose proof (valid_exponent false mx ex j V Hxj) as Hex.
    assert (F2R (Z.pos (mx * mc)) (ex + ec) <= F2R B K)%R as Hv.
    { rewrite Pos2Z.inj_mul, F2R_mul.
      pose proof (F2R_pos mc ec). pose proof (F2R_pos mx ex). nra. }
    apply binary_round_aux_below.
    + exact Hv.
    + lia.
    + apply (fexp_bound _ _ j'); [lra|assumption].
    + eapply Rle_lt_trans; [exact HB|]. apply powerRZ_2_lt. unfold emax, prec. lia.
Qed.

Lemma iter_xO (m d : positive) : Zpos (Pos.iter xO m d) = Zpos m * 2 ^ Zpos d.
Proof.
  induction d as [|d IH] using Pos.peano_ind.
  - cbn [Pos.iter]. rewrite (Pos2Z.inj_xO m). lia.
  - rewrite Pos.iter_succ, (Pos2Z.inj_xO (Pos.iter xO m d)), IH, Pos2Z.inj_succ, Z.pow_succ_r by lia.
    ring.
Qed.

Lemma shl_align_spec (mx : positive) (ex ex' : Z) :
  F2R (Zpos (fst (shl_align mx ex ex'))) (snd (shl_align mx ex ex')) = F2R (Zpos mx) ex /\
  snd (shl_align mx ex ex') = Z.min ex ex'.
Proof.
  unfold shl_align. destruct (ex' - ex) as [|d|d] eqn:E; cbn [fst snd].
  - split; [reflexivity|lia].
  - split; [reflexivity|lia].
  - split; [|lia]. rewrite iter_xO, F2R_shift by lia. f_equal. lia.
Qed.

(** The sum of a positive constant and a number below [a]. *)
Lemma add_below (c x : float) (a : R) (mc : positive) (ec j B K j' : Z) :
  Prim2SF c = S754_finite false mc ec ->
  below a (Prim2SF x) -> (0 <= a)%R ->
  (F2R (Zpos mc) ec + a <= F2R B K)%R -> (F2R B K <= powerRZ 2 j')%R ->
  ec <= K -> Z.max (j' - 52) (-1074) <= K ->
  j' <= 971 ->
  below (F2R B K) (Prim2SF (c + x)).
Proof.
  intros Hc Hx Ha Hsum HB HeK HfK Hov. rewrite add_spec, Hc. unfold SF64add.
  destruct (Prim2SF x) as [s|s| |[|] mx ex]; cbn [below] in Hx; try contradiction.
  - cbn [SFadd below]. lra.
  - cbn [SFadd cond_Zopp].
    set (ez := Z.min ec ex).
    destruct (shl_align_spec mc ec ez) as [Vc Ec].
    destruct (shl_align_spec mx ex ez) as [Vx Ex].
    replace (snd (shl_align mc ec ez)) with ez in Vc by lia.
    replace (snd (shl_align mx ex ez)) with ez in Vx by lia.
    set (pc := fst (shl_align mc ec ez)) in *.
    set (px := fst (shl_align mx ex ez)) in *.
    change (Z.pos pc + Z.pos px) with (Z.pos (pc + px)).
    cbn [binary_normalize]. unfold binary_round.
    set (fz := fexp prec emax (Z.pos (digits2_pos (pc + px)) + ez)).
    destruct (shl_align_spec (pc + px) ez fz) as [Vz Ez].
    destruct (shl_align (pc + px) ez fz) as [mz ez']. cbn [fst snd] in Vz, Ez.
    assert (F2R (Z.pos mz) ez' <= F2R B K)%R as Hv.
    { rewrite Vz, Pos2Z.inj_add, F2R_add, Vc, Vx. lra. }
    apply binary_round_aux_below.
    + exact Hv.
    + lia.
    + apply (fexp_bound _ _ j'); [lra|assumption].
    + eapply Rle_lt_trans; [exact HB|]. apply powerRZ_2_lt. unfold emax, prec. lia.
Qed.


(** Two valid positive numbers: the one with the smaller exponent is not
    larger. *)
Lemma valid_exponent_order (m1 m2 : positive) (e1 e2 : Z) :
  valid_binary (S754_finite false m1 e1) = true ->
  valid_binary (S754_finite false m2 e2) = true ->
  e1 < e2 -> (F2R (Zpos m1) e1 < F2R (Zpos m2) e2)%R.
Proof.
  intros V1 V2 He.
  destruct (valid_normal _ _ _ V1) as (Hi1 & Lo1 & _).
  destruct (valid_normal _ _ _ V2) as (_ & _ & N2). specialize (N2 ltac:(lia)).
  apply Rlt_le_trans with (F2R (2 ^ 53) e1).
  - unfold F2R. apply Rmult_lt_compat_r; [apply powerRZ_2_pos|]. apply IZR_lt. exact Hi1.
  - apply Rle_trans with (F2R (2 ^ 52) e2); [|apply F2R_mono; exact N2].
    replace e2 with (e1 + 1 + (e2 - e1 - 1)) by lia.
    rewrite <- F2R_shift by lia.
    replace (F2R (2 ^ 53) e1) with (F2R (2 ^ 52) (e1 + 1))
      by (rewrite <- F2R_shift by lia; reflexivity).
    apply F2R_mono.
    assert (1 <= 2 ^ (e2 - e1 - 1)) by (apply Z.lt_pred_le, Z.pow_pos_nonneg; lia).
    nia.
Qed.

(** A number at most a constant is not above it. *)
Lemma below_not_gt (t c : float) (mc : positive) (ec : Z) :
  Prim2SF c = S754_finite false mc ec ->
  below (F2R (Zpos mc) ec) (Prim2SF t) ->
  PrimFloat.ltb c t = false.
Proof.
  intros Hc Ht. rewrite ltb_spec, Hc. unfold SFltb.
  pose proof (Prim2SF_valid t) as Vt. pose proof (Prim2SF_valid c) as Vc. rewrite Hc in Vc.
  destruct (Prim2SF t) as [s|s| |[|] m e]; cbn [below] in Ht; try contradiction.
  - destruct s; reflexivity.
  - cbn [SFcompare]. destruct (Z.compare_spec ec e) as [E|L|G]; try reflexivity.
    + subst e. change (Pos.compare_cont Eq mc m) with (Pos.compare mc m).
      destruct (Pos.compare_spec mc m) as [|L|]; try reflexivity.
      exfalso. assert (F2R (Zpos mc) ec < F2R (Zpos m) ec)%R; [|lra].
      unfold F2R. apply Rmult_lt_compat_r; [apply powerRZ_2_pos|]. apply IZR_lt. lia.
    + exfalso. pose proof (valid_exponent_order mc m ec e Vc Vt L). lra.
Qed.

(** A number strictly between zero and a constant is below the constant. *)
Lemma ltb_below (y c : float) (mc : positive) (ec : Z) :
  Prim2SF c = S754_finite false mc ec ->
  PrimFloat.ltb 0 y = true -> PrimFloat.ltb y c = true ->
  below (F2R (Zpos mc) ec) (Prim2SF y).
Proof.
  intros Hc. rewrite !ltb_spec, Hc. change (Prim2SF 0) with (S754_zero false).
  unfold SFltb.
  pose proof (Prim2SF_valid y) as Vy. pose proof (Prim2SF_valid c) as Vc. rewrite Hc in Vc.
  destruct (Prim2SF y) as [s|s| |s m e]; cbn [SFcompare below]; try discriminate.
  - destruct s; discriminate.
  - destruct s; [discriminate|]. intros _.
    destruct (Z.compare_spec e ec) as [E|L|G]; try discriminate.
    + subst e. change (Pos.compare_cont Eq m mc) with (Pos.compare m mc).
      destruct (Pos.compare_spec m mc) as [|L|]; try discriminate. intros _.
      apply F2R_mono. lia.
    + intros _. apply Rlt_le. exact (valid_exponent_order m mc e ec Vy Vc L).
Qed.

Lemma is_zero_spec (y : float) :
  PrimFloat.is_zero y = true -> exists s, Prim2SF y = S754_zero s.
Proof.
  unfold is_zero. rewrite FloatAxioms.eqb_spec. change (Prim2SF 0) with (S754_zero false).
  unfold SFeqb. destruct (Prim2SF y) as [s|s| |s m e]; cbn [SFcompare]; try discriminate.
  - eauto.
  - destruct s; discriminate.
  - destruct s; discriminate.
Qed.

End F64Rounding.

Section DriverRuns.

Context {num : Type} `{Number num}.
Local Open Scope js_scope.

Lemma cells_of_run_cons (video : Video num) (rest : list (Video num)) (c : Cells num) :
  cells_of (run (video :: rest) c) =
    match renderLoop video c with
    | Completed c' _ => cells_of (run rest c')
    | TypeError c' _ => c'
    end.
Proof.
  cbn [run]. destruct (renderLoop video c) as [c' calls|c' calls]; [|reflexivity].
  destruct (run rest c'); reflexivity.
Qed.

Lemma calls_of_run_cons (video : Video num) (rest : list (Video num)) (c : Cells num) :
  calls_of (run (video :: rest) c) =
    match renderLoop video c with
    | Completed c' calls => calls ++ calls_of (run rest c')
    | TypeError _ calls => calls
    end.
Proof.
  cbn [run]. destruct (renderLoop video c) as [c' calls|c' calls]; [|reflexivity].
  destruct (run rest c'); reflexivity.
Qed.

(** A tick that called the face detector saw a changed timestamp, and so
    did one that called the hand detector. *)
Lemma detect_changed (video : Video num) (c : Cells num) :
  In FaceDetect (calls_of (renderLoop video c)) \/
  In HandDetect (calls_of (renderLoop video c)) ->
  (currentTime video === lastVideoTime c) = false.
Proof.
  destruct (currentTime video === lastVideoTime c) eqn:E; [|reflexivity].
  rewrite (renderLoop_unchanged video c E). cbn [calls_of In].
  intros [[HD|[]]|[HD|[]]]; inversion HD.
Qed.

(** What one tick does to the face record when no face is reported. *)
Lemma tick_no_face (video : Video num) (c : Cells num) :
  no_face video ->
  let face := faceDataRef (cells_of (renderLoop video c)) in
  face_position face = face_position (faceDataRef c) /\
  tilt face = tilt (faceDataRef c) /\
  (In FaceDetect (calls_of (renderLoop video c)) -> face_detected face = false) /\
  (face = faceDataRef c \/ face_detected face = false).
Proof.
  intros NF. destruct (currentTime video === lastVideoTime c) eqn:E.
  - rewrite (renderLoop_unchanged video c E). cbn [calls_of cells_of In].
    repeat split; auto. intros [HD|[]]; inversion HD.
  - pose proof (renderLoop_changed video c E) as R. cbv zeta in R.
    rewrite (faceUpdate_none _ _ NF) in R.
    destruct (handUpdate _ _); rewrite R; cbn; auto.
Qed.

(** What one tick does to the hand record when no hand is reported. *)
Lemma tick_no_hand (video : Video num) (c : Cells num) :
  no_hand video ->
  let hand := handDataRef (cells_of (renderLoop video c)) in
  isPinching hand = isPinching (handDataRef c) /\
  pinchDistance hand = pinchDistance (handDataRef c) /\
  hand_position hand = hand_position (handDataRef c) /\
  (In HandDetect (calls_of (renderLoop video c)) -> hand_detected hand = false) /\
  (hand = handDataRef c \/ hand_detected hand = false).
Proof.
  intros NH. destruct (currentTime video === lastVideoTime c) eqn:E.
  - rewrite (renderLoop_unchanged video c E). cbn [calls_of cells_of In].
    repeat split; auto. intros [HD|[]]; inversion HD.
  - pose proof (renderLoop_changed video c E) as R. cbv zeta in R.
    rewrite (handUpdate_none _ _ NH) in R.
    destruct (faceUpdate _ _); rewrite R; cbn [cells_of calls_of handDataRef In];
      repeat split; auto.
    intros [HD|[]]; inversion HD.
Qed.

(** Stale-on-loss over a whole run without faces. *)
Lemma run_no_face (videos : list (Video num)) :
  Forall no_face videos ->
  forall c : Cells num,
    let face := faceDataRef (cells_of (run videos c)) in
    face_position face = face_position (faceDataRef c) /\
    tilt face = tilt (faceDataRef c) /\
    (face = faceDataRef c \/ face_detected face = false).
Proof.
  induction 1 as [|video rest NF _ IH]; intros c; cbv zeta.
  - cbn. auto.
  - rewrite cells_of_run_cons.
    destruct (tick_no_face video c NF) as (P & T & _ & D). cbv zeta in *.
    destruct (renderLoop video c) as [c' calls|c' calls]; cbn [cells_of] in *.
    + destruct (IH c') as (P' & T' & D'). cbv zeta in *.
      rewrite P', T', P, T. repeat split.
      destruct D' as [-> | ->]; auto.
    + auto.
Qed.

Lemma run_no_face_detected (videos : list (Video num)) :
  Forall no_face videos ->
  forall c : Cells num,
    In FaceDetect (calls_of (run videos c)) ->
    face_detected (faceDataRef (cells_of (run videos c))) = false.
Proof.
  induction 1 as [|video rest NF NFs IH]; intros c; [intros []|].
  rewrite cells_of_run_cons, calls_of_run_cons.
  destruct (tick_no_face video c NF) as (_ & _ & D & _). cbv zeta in *.
  destruct (renderLoop video c) as [c' calls|c' calls]; cbn [cells_of calls_of] in *; auto.
  intros HI. apply in_app_or in HI. destruct HI as [HI|HI]; [|auto].
  destruct (run_no_face rest NFs c') as (_ & _ & [-> | ->]); auto.
Qed.

(** Stale-on-loss over a whole run without hands. *)
Lemma run_no_hand (videos : list (Video num)) :
  Forall no_hand videos ->
  forall c : Cells num,
    let hand := handDataRef (cells_of (run videos c)) in
    isPinching hand = isPinching (handDataRef c) /\
    pinchDistance hand = pinchDistance (handDataRef c) /\
    hand_position hand = hand_position (handDataRef c) /\
    (hand = handDataRef c \/ hand_detected hand = false).
Proof.
  induction 1 as [|video rest NH _ IH]; intros c; cbv zeta.
  - cbn. auto.
  - rewrite cells_of_run_cons.
    destruct (tick_no_hand video c NH) as (I & P & Q & _ & D). cbv zeta in *.
    destruct (renderLoop video c) as [c' calls|c' calls]; cbn [cells_of] in *.
    + destruct (IH c') as (I' & P' & Q' & D'). cbv zeta in *.
      rewrite I', P', Q', I, P, Q. repeat split.
      destruct D' as [-> | ->]; auto.
    + auto.
Qed.

Lemma run_no_hand_detected (videos : list (Video num)) :
  Forall no_hand videos ->
  forall c : Cells num,
    In HandDetect (calls_of (run videos c)) ->
    hand_detected (handDataRef (cells_of (run videos c))) = false.
Proof.
  induction 1 as [|video rest NH NHs IH]; intros c; [intros []|].
  rewrite cells_of_run_cons, calls_of_run_cons.
  destruct (tick_no_hand video c NH) as (_ & _ & _ & D & _). cbv zeta in *.
  destruct (renderLoop video c) as [c' calls|c' calls]; cbn [cells_of calls_of] in *; auto.
  intros HI. apply in_app_or in HI. destruct HI as [HI|HI]; [|auto].
  destruct (run_no_hand rest NHs c') as (_ & _ & _ & [-> | ->]); auto.
Qed.

End DriverRuns.

(** ** Pinch detection *)

Section Pinch.

Local Open Scope js_scope.

(** C1: on every inference tick that reports a hand, the written hand record
    has [pinchDistance] equal to the planar Euclidean distance (z ignored)
    of landmark 4 (thumb tip) and landmark 8 (index fingertip), and
    [isPinching] is exactly [distance < 0.05]; a distance of 0 gives
    [isPinching = true] and [pinchDistance = 0], coinciding finite landmarks
    are at distance 0, and a distance [>= 0.05] gives [isPinching = false]. *)
Theorem pinch_is_thresholded_planar_distance
        (video : Video float) (c : Cells float)
        (hand : list (Vector3 float)) (others : list (list (Vector3 float))) :
  (currentTime video === lastVideoTime c) = false ->
  faces_well_formed video ->
  landmarks (handLandmarker_detectForVideo video) = hand :: others ->
  (8 < List.length hand)%nat ->
  exists thumbTip indexTip : Vector3 float,
    nth_error hand 4 = Some thumbTip /\
    nth_error hand 8 = Some indexTip /\
    let written := handDataRef (cells_of (renderLoop video c)) in
    let distance := euclidean2 thumbTip indexTip in
    hand_detected written = true /\
    pinchDistance written = distance /\
    isPinching written = (distance <? #0.05) /\
    (distance = #0 -> isPinching written = true /\ pinchDistance written = #0) /\
    (x thumbTip = x indexTip -> y thumbTip = y indexTip ->
     F64.finite (x thumbTip) = true -> F64.finite (y thumbTip) = true ->
     distance = #0) /\
    ((#0.05 <=? distance) = true -> isPinching written = false).
Proof.
  intros E WF L Hlen.
  destruct (nth_error_in_range hand 4) as [thumbTip N4];
    [eapply Nat.lt_trans; [|exact Hlen]; repeat constructor|].
  destruct (nth_error_in_range hand 8 Hlen) as [indexTip N8].
  destruct (nth_error_in_range hand 0) as [handPos N0];
    [eapply Nat.lt_trans; [|exact Hlen]; repeat constructor|].
  exists thumbTip, indexTip. split; [exact N4|]. split; [exact N8|].
  pose proof (renderLoop_changed video c E) as R. cbv zeta in R.
  destruct (faceUpdate_total video (faceDataRef c) WF) as [face F]. rewrite F in R.
  rewrite (handUpdate_some _ (handDataRef c) hand others handPos thumbTip indexTip L N0 N4 N8) in R.
  rewrite R. cbn [cells_of handDataRef hand_detected pinchDistance isPinching].
  repeat split.
  - rewrite H. reflexivity.
  - assumption.
  - intros Hx Hy Fx Fy. unfold euclidean2. rewrite <- Hx, <- Hy.
    cbn [num_sub Float64].
    rewrite (F64Facts.sub_diag _ Fx), (F64Facts.sub_diag _ Fy). reflexivity.
  - apply F64Facts.leb_ltb.
Qed.

Lemma pinch_is_thresholded_planar_distance_witness :
  exists thumbTip indexTip : Vector3 float,
    nth_error pinched_hand 4 = Some thumbTip /\
    nth_error pinched_hand 8 = Some indexTip /\
    let written :=
      handDataRef (cells_of (renderLoop (frame 0 [] [pinched_hand]) initialCells)) in
    let distance := euclidean2 thumbTip indexTip in
    hand_detected written = true /\
    pinchDistance written = distance /\
    isPinching written = (distance <? #0.05) /\
    (distance = #0 -> isPinching written = true /\ pinchDistance written = #0) /\
    (x thumbTip = x indexTip -> y thumbTip = y indexTip ->
     F64.finite (x thumbTip) = true -> F64.finite (y thumbTip) = true ->
     distance = #0) /\
    ((#0.05 <=? distance) = true -> isPinching written = false).
Proof.
  apply (pinch_is_thresholded_planar_distance
           (frame 0 [] [pinched_hand]) initialCells pinched_hand []).
  - vm_compute. reflexivity.
  - constructor.
  - reflexivity.
  - vm_compute. repeat constructor.
Defined.

(** The two sample hands, evaluated: coinciding tips pinch at distance 0
    whatever their depth, and tips 0.25 apart do not pinch. *)
Example pinched_hand_written :
  handUpdate {| landmarks := [pinched_hand] |} initialHandData =
    Some {| hand_detected := true; isPinching := true; pinchDistance := 0%float;
            hand_position := landmark 0.5 0.75 0 |}.
Proof. vm_compute. reflexivity. Qed.

Example open_hand_written :
  handUpdate {| landmarks := [open_hand] |} initialHandData =
    Some {| hand_detected := true; isPinching := false; pinchDistance := 0.25%float;
            hand_position := landmark 0.5 0.75 0 |}.
Proof. vm_compute. reflexivity. Qed.

End Pinch.

(** ** Frame skipping, stale-on-loss and the invariants of the two records *)

Section DriverClaims.

Context {num : Type} `{Number num}.
Local Open Scope js_scope.

(** C2: a tick whose video timestamp equals the last processed one calls
    neither detector, leaves the cells (both records) as they are and
    reschedules itself; a tick with a different timestamp records it and, on
    well-formed detector output, calls the face detector and the hand
    detector exactly once each; and after a tick that completed, a second
    tick at the recorded timestamp adds nothing but its rescheduling. *)
Theorem frame_skip_gates_detection (video : Video num) (c : Cells num) :
  ((currentTime video === lastVideoTime c) = true ->
     renderLoop video c = Completed c [RequestAnimationFrame] /\
     invocations FaceDetect (calls_of (renderLoop video c)) = 0%nat /\
     invocations HandDetect (calls_of (renderLoop video c)) = 0%nat /\
     invocations RequestAnimationFrame (calls_of (renderLoop video c)) = 1%nat /\
     faceDataRef (cells_of (renderLoop video c)) = faceDataRef c /\
     handDataRef (cells_of (renderLoop video c)) = handDataRef c) /\
  ((currentTime video === lastVideoTime c) = false ->
     faces_well_formed video ->
     lastVideoTime (cells_of (renderLoop video c)) = currentTime video /\
     invocations FaceDetect (calls_of (renderLoop video c)) = 1%nat /\
     invocations HandDetect (calls_of (renderLoop video c)) = 1%nat) /\
  (forall (next : Video num) (c' : Cells num) (calls : list Call),
     renderLoop video c = Completed c' calls ->
     (currentTime next === lastVideoTime c') = true ->
     run [video; next] c = Completed c' (calls ++ [RequestAnimationFrame])).
Proof.
  split; [|split].
  - intros E. rewrite (renderLoop_unchanged video c E). repeat split.
  - intros E WF. pose proof (renderLoop_changed video c E) as R. cbv zeta in R.
    destruct (faceUpdate_total video (faceDataRef c) WF) as [face F]. rewrite F in R.
    destruct (handUpdate _ _); rewrite R; repeat split.
  - intros next c' calls R E. cbn [run]. rewrite R.
    rewrite (renderLoop_unchanged next c' E). reflexivity.
Qed.

(** What an inference tick writes to the face record when the detector
    reports no face, and to the hand record when it reports no hand. *)
Lemma tick_loses_face (video : Video num) (c : Cells num) :
  (currentTime video === lastVideoTime c) = false ->
  no_face video ->
  In FaceDetect (calls_of (renderLoop video c)) /\
  faceDataRef (cells_of (renderLoop video c)) =
    {| face_detected := false;
       face_position := face_position (faceDataRef c);
       tilt := tilt (faceDataRef c) |}.
Proof.
  intros E NF. pose proof (renderLoop_changed video c E) as R. cbv zeta in R.
  rewrite (faceUpdate_none _ _ NF) in R.
  destruct (handUpdate _ _); rewrite R; cbn [calls_of cells_of faceDataRef In]; auto.
Qed.

Lemma tick_loses_hand (video : Video num) (c : Cells num) :
  (currentTime video === lastVideoTime c) = false ->
  faces_well_formed video ->
  no_hand video ->
  In HandDetect (calls_of (renderLoop video c)) /\
  handDataRef (cells_of (renderLoop video c)) =
    {| hand_detected := false;
       isPinching := isPinching (handDataRef c);
       pinchDistance := pinchDistance (handDataRef c);
       hand_position := hand_position (handDataRef c) |}.
Proof.
  intros E WF NH. pose proof (renderLoop_changed video c E) as R. cbv zeta in R.
  destruct (faceUpdate_total video (faceDataRef c) WF) as [face F]. rewrite F in R.
  rewrite (handUpdate_none _ _ NH) in R. rewrite R.
  cbn [calls_of cells_of handDataRef In]. auto.
Qed.

(** A run of ticks without a face that begins with an inference tick ends
    with the face record it began with, marked as not detected; likewise
    for hands. *)
Lemma run_loses_face (first : Video num) (rest : list (Video num)) (c : Cells num) :
  (currentTime first === lastVideoTime c) = false ->
  Forall no_face (first :: rest) ->
  faceDataRef (cells_of (run (first :: rest) c)) =
    {| face_detected := false;
       face_position := face_position (faceDataRef c);
       tilt := tilt (faceDataRef c) |}.
Proof.
  intros E NF. inversion NF as [|? ? NF1 NFs]; subst.
  destruct (tick_loses_face first c E NF1) as (_ & W).
  rewrite cells_of_run_cons.
  destruct (renderLoop first c) as [c' calls|c' calls]; cbn [cells_of] in W; [|exact W].
  destruct (run_no_face rest NFs c') as (P & T & [Same|Lost]); cbv zeta in *.
  - rewrite Same. exact W.
  - rewrite W in P, T. cbn [face_position tilt] in P, T.
    destruct (faceDataRef (cells_of (run rest c'))) as [d p t].
    cbn [face_detected face_position tilt] in *. subst. reflexivity.
Qed.

Lemma run_loses_hand (first : Video num) (rest : list (Video num)) (c : Cells num) :
  (currentTime first === lastVideoTime c) = false ->
  faces_well_formed first ->
  Forall no_hand (first :: rest) ->
  handDataRef (cells_of (run (first :: rest) c)) =
    {| hand_detected := false;
       isPinching := isPinching (handDataRef c);
       pinchDistance := pinchDistance (handDataRef c);
       hand_position := hand_position (handDataRef c) |}.
Proof.
  intros E WF NH. inversion NH as [|? ? NH1 NHs]; subst.
  destruct (tick_loses_hand first c E WF NH1) as (_ & W).
  rewrite cells_of_run_cons.
  destruct (renderLoop first c) as [c' calls|c' calls]; cbn [cells_of] in W; [|exact W].
  destruct (run_no_hand rest NHs c') as (I & P & Q & [Same|Lost]); cbv zeta in *.
  - rewrite Same. exact W.
  - rewrite W in I, P, Q. cbn [isPinching pinchDistance hand_position] in I, P, Q.
    destruct (handDataRef (cells_of (run rest c'))) as [d i p q].
    cbn [hand_detected isPinching pinchDistance hand_position] in *. subst. reflexivity.
Qed.

(** C3: an inference tick (one whose timestamp is new) on which the face
    detector reports no face calls that detector and writes the face record
    with [detected] false and every other field as it was; an inference
    tick on which the hand detector reports no hand does the same to the
    hand record, provided the face part of the tick did not fail.  Hence a
    run of ticks without a face (without a hand) that begins with an
    inference tick ends with the record it began with, marked as not
    detected; over any run of such ticks, inference or not, the other
    fields keep their values and [detected] is false once the detector was
    called; and after a tick that saw a face (a hand) such a run leaves the
    position read on that tick, with [detected] false. *)
Theorem stale_on_loss :
  (forall (video : Video num) (c : Cells num),
     (currentTime video === lastVideoTime c) = false ->
     no_face video ->
     In FaceDetect (calls_of (renderLoop video c)) /\
     faceDataRef (cells_of (renderLoop video c)) =
       {| face_detected := false;
          face_position := face_position (faceDataRef c);
          tilt := tilt (faceDataRef c) |}) /\
  (forall (video : Video num) (c : Cells num),
     (currentTime video === lastVideoTime c) = false ->
     faces_well_formed video ->
     no_hand video ->
     In HandDetect (calls_of (renderLoop video c)) /\
     handDataRef (cells_of (renderLoop video c)) =
       {| hand_detected := false;
          isPinching := isPinching (handDataRef c);
          pinchDistance := pinchDistance (handDataRef c);
          hand_position := hand_position (handDataRef c) |}) /\
  (forall (first : Video num) (rest : list (Video num)) (c : Cells num),
     (currentTime first === lastVideoTime c) = false ->
     Forall no_face (first :: rest) ->
     faceDataRef (cells_of (run (first :: rest) c)) =
       {| face_detected := false;
          face_position := face_position (faceDataRef c);
          tilt := tilt (faceDataRef c) |}) /\
  (forall (first : Video num) (rest : list (Video num)) (c : Cells num),
     (currentTime first === lastVideoTime c) = false ->
     faces_well_formed first ->
     Forall no_hand (first :: rest) ->
     handDataRef (cells_of (run (first :: rest) c)) =
       {| hand_detected := false;
          isPinching := isPinching (handDataRef c);
          pinchDistance := pinchDistance (handDataRef c);
          hand_position := hand_position (handDataRef c) |}) /\
  (forall (videos : list (Video num)) (c : Cells num),
     Forall no_face videos ->
     let face := faceDataRef (cells_of (run videos c)) in
     face_position face = face_position (faceDataRef c) /\
     tilt face = tilt (faceDataRef c) /\
     (In FaceDetect (calls_of (run videos c)) -> face_detected face = false)) /\
  (forall (videos : list (Video num)) (c : Cells num),
     Forall no_hand videos ->
     let hand := handDataRef (cells_of (run videos c)) in
     hand_position hand = hand_position (handDataRef c) /\
     isPinching hand = isPinching (handDataRef c) /\
     pinchDistance hand = pinchDistance (handDataRef c) /\
     (In HandDetect (calls_of (run videos c)) -> hand_detected hand = false)) /\
  (forall (seen first : Video num) (rest : list (Video num)) (c : Cells num)
          (face : list (Vector3 num)) (faces : list (list (Vector3 num)))
          (nose : Vector3 num),
     (currentTime seen === lastVideoTime c) = false ->
     faceLandmarks (faceLandmarker_detectForVideo seen) = face :: faces ->
     nth_error face 1 = Some nose ->
     hands_well_formed seen ->
     (currentTime first === currentTime seen) = false ->
     Forall no_face (first :: rest) ->
     faceDataRef (cells_of (run (seen :: first :: rest) c)) =
       {| face_detected := false;
          face_position := {| x := x nose; y := y nose; z := z nose |};
          tilt := #0 |}) /\
  (forall (seen first : Video num) (rest : list (Video num)) (c : Cells num)
          (hand : list (Vector3 num)) (hands : list (list (Vector3 num)))
          (wrist thumbTip indexTip : Vector3 num),
     (currentTime seen === lastVideoTime c) = false ->
     faces_well_formed seen ->
     landmarks (handLandmarker_detectForVideo seen) = hand :: hands ->
     nth_error hand 0 = Some wrist ->
     nth_error hand 4 = Some thumbTip ->
     nth_error hand 8 = Some indexTip ->
     (currentTime first === currentTime seen) = false ->
     faces_well_formed first ->
     Forall no_hand (first :: rest) ->
     handDataRef (cells_of (run (seen :: first :: rest) c)) =
       {| hand_detected := false;
          isPinching := euclidean2 thumbTip indexTip <? #0.05;
          pinchDistance := euclidean2 thumbTip indexTip;
          hand_position := {| x := x wrist; y := y wrist; z := z wrist |} |}).
Proof.
  split; [exact tick_loses_face|]. split; [exact tick_loses_hand|].
  split; [exact run_loses_face|]. split; [exact run_loses_hand|].
  split; [|split; [|split]].
  - intros videos c NF. cbv zeta.
    destruct (run_no_face videos NF c) as (P & T & _).
    repeat split; auto. apply run_no_face_detected; assumption.
  - intros videos c NH. cbv zeta.
    destruct (run_no_hand videos NH c) as (I & P & Q & _).
    repeat split; auto. apply run_no_hand_detected; assumption.
  - intros seen first rest c face faces nose E F N WH E' NF.
    pose proof (renderLoop_changed seen c E) as R. cbv zeta in R.
    rewrite (faceUpdate_some _ (faceDataRef c) face faces nose F N) in R.
    destruct (handUpdate_total seen (handDataRef c) WH) as [written W]. rewrite W in R.
    rewrite cells_of_run_cons, R.
    match goal with |- context [run _ ?c'] =>
      exact (run_loses_face first rest c' E' NF) end.
  - intros seen first rest c hand hands wrist thumbTip indexTip E WF L N0 N4 N8 E' WF' NH.
    pose proof (renderLoop_changed seen c E) as R. cbv zeta in R.
    destruct (faceUpdate_total seen (faceDataRef c) WF) as [written W]. rewrite W in R.
    rewrite (handUpdate_some _ (handDataRef c) hand hands wrist thumbTip indexTip
                             L N0 N4 N8) in R.
    rewrite cells_of_run_cons, R.
    match goal with |- context [run _ ?c'] =>
      exact (run_loses_hand first rest c' E' WF' NH) end.
Qed.

(** One tick keeps a zero tilt. *)
Lemma tick_tilt (video : Video num) (c : Cells num) :
  tilt (faceDataRef c) = #0 ->
  tilt (faceDataRef (cells_of (renderLoop video c))) = #0.
Proof.
  intros T. destruct (currentTime video === lastVideoTime c) eqn:E.
  - rewrite (renderLoop_unchanged video c E). exact T.
  - pose proof (renderLoop_changed video c E) as R. cbv zeta in R.
    destruct (faceUpdate _ _) as [face|] eqn:F.
    + assert (tilt face = #0) as T'.
      { unfold faceUpdate in F.
        destruct (faceLandmarks _) as [|face0 others].
        - injection F as <-. exact T.
        - destruct (nth_error face0 1); [injection F as <-; reflexivity|discriminate]. }
      destruct (handUpdate _ _); rewrite R; exact T'.
    + rewrite R. exact T.
Qed.

Lemma run_tilt (videos : list (Video num)) :
  forall c : Cells num,
    tilt (faceDataRef c) = #0 ->
    tilt (faceDataRef (cells_of (run videos c))) = #0.
Proof.
  induction videos as [|video rest IH]; intros c T; [exact T|].
  rewrite cells_of_run_cons. pose proof (tick_tilt video c T) as T'.
  destruct (renderLoop video c); cbn [cells_of] in T'; auto.
Qed.

(** C8: the tilt of the face record is 0 in the initial state and after
    any sequence of ticks; a detection writes 0 and a loss keeps the value
    it finds. *)
Theorem tilt_is_always_zero :
  tilt initialFaceData = #0 /\
  (forall videos : list (Video num),
     tilt (faceDataRef (cells_of (run videos initialCells))) = #0) /\
  (forall (r : FaceLandmarkerResult num) (current face : FaceData num),
     faceUpdate r current = Some face ->
     (faceLandmarks r <> [] -> face_detected face = true /\ tilt face = #0) /\
     (faceLandmarks r = [] -> face_detected face = false /\ tilt face = tilt current)).
Proof.
  split; [reflexivity|]. split.
  - intros videos. apply run_tilt. reflexivity.
  - intros r current face F. unfold faceUpdate in F.
    destruct (faceLandmarks r) as [|face0 others].
    + injection F as <-. split; [intros N; destruct (N eq_refl)|]. split; reflexivity.
    + destruct (nth_error face0 1); [injection F as <-|discriminate].
      split; [split; reflexivity|discriminate].
Qed.

Lemma handUpdate_backed (r : HandLandmarkerResult num) (current hand : HandData num) :
  handUpdate r current = Some hand -> pinch_backed current -> pinch_backed hand.
Proof.
  unfold handUpdate, pinch_backed. intros U B.
  destruct (landmarks r) as [|hand0 others].
  - injection U as <-. exact B.
  - destruct (nth_error hand0 4); [|discriminate].
    destruct (nth_error hand0 8); [|discriminate].
    destruct (nth_error hand0 0); [injection U as <-|discriminate].
    cbn. intros P. exact P.
Qed.

Lemma tick_backed (video : Video num) (c : Cells num) :
  pinch_backed (handDataRef c) ->
  pinch_backed (handDataRef (cells_of (renderLoop video c))).
Proof.
  intros B. destruct (currentTime video === lastVideoTime c) eqn:E.
  - rewrite (renderLoop_unchanged video c E). exact B.
  - pose proof (renderLoop_changed video c E) as R. cbv zeta in R.
    destruct (faceUpdate _ _); [|rewrite R; exact B].
    destruct (handUpdate _ _) as [hand|] eqn:U; rewrite R; [|exact B].
    exact (handUpdate_backed _ _ _ U B).
Qed.

Lemma run_backed (videos : list (Video num)) :
  forall c : Cells num,
    pinch_backed (handDataRef c) ->
    pinch_backed (handDataRef (cells_of (run videos c))).
Proof.
  induction videos as [|video rest IH]; intros c B; [exact B|].
  rewrite cells_of_run_cons. pose proof (tick_backed video c B) as B'.
  destruct (renderLoop video c); cbn [cells_of] in B'; auto.
Qed.

End DriverClaims.

(** ** Reading the program at the two instances *)

(** Unfolds the arithmetic of [Float64] to the primitive operations. *)
Ltac f64 :=
  cbn [num_add num_sub num_mul num_ltb num_leb strict_eq lit
       Math_sqrt Math_max Math_min Float64] in *.

(** Unfolds the arithmetic of [Ideal] to the operations of [R], literals
    included. *)
Ltac ideal :=
  cbn [num_add num_sub num_mul num_ltb num_leb strict_eq lit
       Math_sqrt Math_max Math_min Ideal] in *;
  unfold Exact.ltb, Exact.leb, Exact.eqb, Q2R in *;
  cbn [Qnum Qden] in *.

Section PinchInvariant.

Local Open Scope js_scope.

(** C10: in the initial state and after any sequence of ticks, a set pinch
    flag implies a pinch distance below 0.05; the converse fails in the
    initial state, whose distance 0 is below 0.05 while the flag is unset;
    on a tick that reports a hand the flag equals the comparison. *)
Theorem pinching_implies_close_not_conversely :
  (forall videos : list (Video float),
     let hand := handDataRef (cells_of (run videos initialCells)) in
     isPinching hand = true -> (pinchDistance hand <? #0.05) = true) /\
  (isPinching (@initialHandData float _) = false /\
   pinchDistance (@initialHandData float _) = #0 /\
   (pinchDistance (@initialHandData float _) <? #0.05) = true) /\
  (forall (r : HandLandmarkerResult float) (current hand : HandData float),
     landmarks r <> [] -> handUpdate r current = Some hand ->
     isPinching hand = (pinchDistance hand <? #0.05)).
Proof.
  split; [|split].
  - intros videos. apply (run_backed videos initialCells). intros P. discriminate P.
  - repeat split.
  - intros r current hand NE U. unfold handUpdate in U.
    destruct (landmarks r) as [|hand0 others]; [destruct (NE eq_refl)|].
    destruct (nth_error hand0 4); [|discriminate].
    destruct (nth_error hand0 8); [|discriminate].
    destruct (nth_error hand0 0); [injection U as <-|discriminate].
    reflexivity.
Qed.

End PinchInvariant.

(** ** The holographic globe *)

Section GlobeClaims.

Local Open Scope js_scope.

(** C4: with a hand detected the rotation rate is [R0 + (handX - 0.5) * K];
    [handX = 0.5] gives [R0], [handX = 1] gives [R0 + 0.5 * K], [handX = 0]
    gives [R0 - 0.5 * K]; with no hand detected the rate is [R0]. *)
Theorem rotation_rate_is_linear_in_hand_x (hand : HandData float) :
  (hand_detected hand = true ->
     rotationSpeed hand = rate_R0 + (x (hand_position hand) - #0.5) * gain_K) /\
  (hand_detected hand = true -> x (hand_position hand) = #0.5 ->
     rotationSpeed hand = rate_R0) /\
  (hand_detected hand = true -> x (hand_position hand) = #1 ->
     rotationSpeed hand = rate_R0 + #0.5 * gain_K) /\
  (hand_detected hand = true -> x (hand_position hand) = #0 ->
     rotationSpeed hand = rate_R0 - #0.5 * gain_K) /\
  (hand_detected hand = false -> rotationSpeed hand = rate_R0).
Proof.
  unfold rotationSpeed, rate_R0, gain_K.
  repeat split; intros D; rewrite D; try reflexivity; intros ->; vm_compute; reflexivity.
Qed.

End GlobeClaims.

(** ** The clamp and the scale formula in binary64 *)

Module F64Scale.

Import F64 F64Rounding.
Local Open Scope float_scope.

Lemma Prim2SF_1 : Prim2SF 1 = S754_finite false 4503599627370496 (-52).
Proof. vm_compute. reflexivity. Qed.

Lemma Prim2SF_1_5 : Prim2SF 1.5 = S754_finite false 6755399441055744 (-52).
Proof. vm_compute. reflexivity. Qed.

Lemma Prim2SF_0_5 : Prim2SF 0.5 = S754_finite false 4503599627370496 (-53).
Proof. vm_compute. reflexivity. Qed.

Lemma Prim2SF_2_5 : Prim2SF 2.5 = S754_finite false 5629499534213120 (-51).
Proof. vm_compute. reflexivity. Qed.

Lemma Prim2SF_5 : Prim2SF 5 = S754_finite false 5629499534213120 (-50).
Proof. vm_compute. reflexivity. Qed.

(** The values of the constants, on small mantissas. *)
Lemma F2R_1 : F2R 4503599627370496 (-52) = F2R 1 0.
Proof. change 4503599627370496%Z with (1 * 2 ^ 52)%Z. rewrite F2R_shift by lia. reflexivity. Qed.

Lemma F2R_1_5 : F2R 6755399441055744 (-52) = F2R 3 (-1).
Proof. change 6755399441055744%Z with (3 * 2 ^ 51)%Z. rewrite F2R_shift by lia. reflexivity. Qed.

Lemma F2R_0_5 : F2R 4503599627370496 (-53) = F2R 1 (-1).
Proof. change 4503599627370496%Z with (1 * 2 ^ 52)%Z. rewrite F2R_shift by lia. reflexivity. Qed.

Lemma F2R_2_5 : F2R 5629499534213120 (-51) = F2R 5 (-1).
Proof. change 5629499534213120%Z with (5 * 2 ^ 50)%Z. rewrite F2R_shift by lia. reflexivity. Qed.

Lemma F2R_5 : F2R 5629499534213120 (-50) = F2R 5 0.
Proof. change 5629499534213120%Z with (5 * 2 ^ 50)%Z. rewrite F2R_shift by lia. reflexivity. Qed.

Ltac small_values :=
  unfold F2R; simpl; lra.

(** The clamp [Math.max(0, Math.min(1, y))] is NaN or lies in [0,1]. *)
Lemma clamp_cases (y : float) :
  F64.max 0 (F64.min 1 y) = nan \/ below (F2R 1 0) (Prim2SF (F64.max 0 (F64.min 1 y))).
Proof.
  assert (below (F2R 1 0) (Prim2SF 1)) as One
      by (rewrite Prim2SF_1; cbn [below]; rewrite F2R_1; apply Rle_refl).
  assert (below (F2R 1 0) (Prim2SF 0)) as Zero by exact I.
  assert (forall z, z = nan \/ z = 1 \/ (z = y /\ (y <? 1) = true) \/
                    (z = y /\ is_neg_zero y = true) ->
          F64.max 0 z = nan \/ below (F2R 1 0) (Prim2SF (F64.max 0 z))) as Max.
  { intros z Hz. unfold F64.max.
    change (is_nan 0) with false. change (is_neg_zero 0) with false. cbn [orb].
    destruct (is_nan z); [left; reflexivity|]. right.
    destruct (0 <? z) eqn:Pz; [|destruct (z <? 0); exact Zero].
    destruct Hz as [->|[->|[[-> Hy]|[-> Hy]]]].
    - discriminate Pz.
    - exact One.
    - rewrite <- F2R_1. exact (ltb_below y 1 _ _ Prim2SF_1 Pz Hy).
    - unfold is_neg_zero in Hy. apply andb_prop in Hy. destruct Hy as [Hy _].
      destruct (is_zero_spec y Hy) as [s ->]. exact I. }
  apply Max. unfold F64.min. change (is_nan 1) with false. cbn [orb].
  destruct (is_nan y); [left; reflexivity|]. right.
  destruct (1 <? y); [left; reflexivity|].
  destruct (y <? 1) eqn:Hy; [right; left; split; reflexivity|].
  destruct (is_neg_zero y) eqn:Hz; [right; right; split; reflexivity|].
  left; reflexivity.
Qed.

(** A number below a constant compares as at least zero and at most the
    constant. *)
Lemma below_range (t c : float) (mc : positive) (ec : Z) :
  Prim2SF c = S754_finite false mc ec ->
  below (F2R (Zpos mc) ec) (Prim2SF t) ->
  (0 <=? t) = true /\ (t <=? c) = true.
Proof.
  intros Hc Ht. pose proof (below_not_gt t c mc ec Hc Ht) as Ngt.
  revert Ngt. rewrite !leb_spec, ltb_spec. unfold SFleb, SFltb.
  rewrite (F64Facts.SFcompare_antisym (Prim2SF c) (Prim2SF t)), Hc.
  change (Prim2SF 0) with (S754_zero false).
  destruct (Prim2SF t) as [s|s| |[|] m e]; cbn [below] in Ht; try contradiction.
  - intros _. split; reflexivity.
  - cbn [SFcompare option_map].
    destruct (match (ec ?= e)%Z with
              | Eq => Pos.compare_cont Eq mc m
              | Lt => Lt
              | Gt => Gt
              end); cbn [CompOpp]; intros Ngt; try discriminate Ngt; split; reflexivity.
Qed.

(** The clamp compares as a member of [0,1] unless it is NaN. *)
Lemma clamp_range (y : float) :
  F64.max 0 (F64.min 1 y) = nan \/
  ((0 <=? F64.max 0 (F64.min 1 y)) = true /\ (F64.max 0 (F64.min 1 y) <=? 1) = true).
Proof.
  destruct (clamp_cases y) as [N|B]; [left; exact N|right].
  apply (below_range _ 1 _ _ Prim2SF_1). rewrite F2R_1. exact B.
Qed.

(** The scale formula applied to a factor in [0,1] stays within 5. *)
Lemma formula_below (pf : float) :
  below (F2R 1 0) (Prim2SF pf) ->
  below (F2R 5 0) (Prim2SF (2.5 * (0.5 + pf * 1.5))).
Proof.
  intros Hpf.
  assert (below (F2R 3 (-1)) (Prim2SF (pf * 1.5))) as H1.
  { apply (mul_below pf 1.5 (F2R 1 0) 6755399441055744 (-52) 0 3 (-1) 1 Hpf); try lia.
    - small_values.
    - exact Prim2SF_1_5.
    - rewrite F2R_1_5. small_values.
    - small_values. }
  assert (below (F2R 1 1) (Prim2SF (0.5 + pf * 1.5))) as H2.
  { apply (add_below 0.5 (pf * 1.5) (F2R 3 (-1)) 4503599627370496 (-53) 1 1 1 1 Prim2SF_0_5 H1); try lia.
    - small_values.
    - rewrite F2R_0_5. small_values.
    - small_values. }
  rewrite F64Facts.mul_comm.
  apply (mul_below (0.5 + pf * 1.5) 2.5 (F2R 1 1) 5629499534213120 (-51) 1 5 0 3 H2); try lia.
  - small_values.
  - exact Prim2SF_2_5.
  - rewrite F2R_2_5. small_values.
  - small_values.
Qed.

(** No pinch distance drives the scale formula above 5. *)
Lemma formula_not_above (y : float) :
  (5 <? 2.5 * (0.5 + F64.max 0 (F64.min 1 y) * 1.5)) = false.
Proof.
  destruct (clamp_cases y) as [-> | B].
  - vm_compute. reflexivity.
  - apply (below_not_gt _ 5 _ _ Prim2SF_5). rewrite F2R_5. apply formula_below, B.
Qed.

End F64Scale.

Section ScaleClaims.

Local Open Scope js_scope.

(** The pinch factor in exact arithmetic is the clamp of ten times the
    distance to the unit interval. *)
Lemma pinchFactor_ideal (hand : HandData R) :
  (0 <= pinchFactor hand <= 1)%R /\
  (pinchDistance hand <= 0 -> pinchFactor hand = 0)%R /\
  (0 <= pinchDistance hand <= 0.1 -> pinchFactor hand = 10 * pinchDistance hand)%R /\
  (0.1 <= pinchDistance hand -> pinchFactor hand = 1)%R.
Proof.
  unfold pinchFactor. ideal. unfold Rmax, Rmin.
  repeat (destruct (Rle_dec _ _)); repeat split; intros; lra.
Qed.

Lemma pinchFactor_ideal_monotone (h1 h2 : HandData R) :
  (pinchDistance h1 <= pinchDistance h2 -> pinchFactor h1 <= pinchFactor h2)%R.
Proof.
  unfold pinchFactor. ideal. unfold Rmax, Rmin.
  repeat (destruct (Rle_dec _ _)); intros; lra.
Qed.

(** C5 as first stated ("if pinching, the target scale equals
    [S0 * (0.5 + normalized * 1.5)]") fails on [lost_pinch], the record left
    after a pinch was seen and the hand was lost: the flag is set, the hand
    is not detected, and the target is the base scale 2.5 where the pinch
    formula gives 1.25. *)
Lemma pinch_scale_ignores_lost_hand :
  lost_pinch = {| hand_detected := false; isPinching := true;
                  pinchDistance := 0%float;
                  hand_position := landmark 0.5 0.75 0 |} /\
  targetScale lost_pinch = 2.5%float /\
  specified_targetScale lost_pinch = 1.25%float /\
  targetScale lost_pinch <> specified_targetScale lost_pinch.
Proof.
  assert (targetScale lost_pinch = 2.5%float) as T by (vm_compute; reflexivity).
  assert (specified_targetScale lost_pinch = 1.25%float) as S by (vm_compute; reflexivity).
  split; [vm_compute; reflexivity|]. split; [exact T|]. split; [exact S|].
  rewrite T, S. intros E.
  assert (PrimFloat.eqb 2.5 1.25 = true) as A by (rewrite E; vm_compute; reflexivity).
  vm_compute in A. discriminate A.
Qed.

(** C5 (amended): if the hand is not detected or not pinching the target
    scale is the base scale [S0]; if it is detected and pinching the target
    is [S0 * (0.5 + normalized * 1.5)], where [normalized] is the pinch
    distance times 10 clamped to [0,1] (NaN for a NaN distance); in exact
    arithmetic the target of a detected pinching hand grows with the pinch
    distance, from [0.5 * S0] at distance 0 to [2 * S0] from distance 0.1
    on. *)
Theorem pinch_scale_of_detected_hand :
  (forall hand : HandData float,
     (hand_detected hand = false \/ isPinching hand = false ->
        targetScale hand = scale_S0) /\
     (hand_detected hand = true -> isPinching hand = true ->
        targetScale hand = scale_S0 * (#0.5 + pinchFactor hand * #1.5)) /\
     pinchFactor hand = Math_max #0 (Math_min #1 (pinchDistance hand * #10)) /\
     (pinchFactor hand = PrimFloat.nan \/
      ((#0 <=? pinchFactor hand) = true /\ (pinchFactor hand <=? #1) = true))) /\
  (forall h1 h2 : HandData R,
     hand_detected h1 = true -> isPinching h1 = true ->
     hand_detected h2 = true -> isPinching h2 = true ->
     (pinchDistance h1 <= pinchDistance h2 ->
      0.5 * scale_S0 <= targetScale h1 <= targetScale h2 /\
      targetScale h2 <= 2 * scale_S0)%R /\
     (pinchDistance h1 <= 0 -> targetScale h1 = 0.5 * scale_S0)%R /\
     (0.1 <= pinchDistance h2 -> targetScale h2 = 2 * scale_S0)%R).
Proof.
  split.
  - intros hand. unfold targetScale, scale_S0.
    split; [|split; [|split]].
    + intros [-> | ->]; [reflexivity|]. rewrite andb_false_r. reflexivity.
    + intros -> ->. reflexivity.
    + reflexivity.
    + exact (F64Scale.clamp_range (pinchDistance hand * 10)%float).
  - intros h1 h2 D1 P1 D2 P2. unfold targetScale, scale_S0, baseScale.
    rewrite D1, P1, D2, P2. cbn [andb].
    pose proof (pinchFactor_ideal h1) as (B1 & Z1 & _ & _).
    pose proof (pinchFactor_ideal h2) as (B2 & _ & _ & O2).
    pose proof (pinchFactor_ideal_monotone h1 h2) as M.
    ideal. split; [|split]; intros Hd.
    + specialize (M Hd). nra.
    + rewrite (Z1 Hd). lra.
    + rewrite (O2 Hd). lra.
Qed.

(** Below the pinch threshold the exact target stays under 1.25 times the
    base scale. *)
Lemma pinch_scale_below_threshold (hand : HandData R) :
  (pinchDistance hand < 0.05 -> targetScale hand <= 1.25 * scale_S0)%R.
Proof.
  unfold targetScale, scale_S0, baseScale. intros Hd.
  pose proof (pinchFactor_ideal hand) as (B & Z & L & _).
  destruct (hand_detected hand && isPinching hand); ideal; [|lra].
  destruct (Rle_dec (pinchDistance hand) 0) as [N|N].
  - rewrite (Z N). lra.
  - rewrite L by lra. lra.
Qed.

(** C6: a detected pinching hand at pinch distance 0.1 has pinch factor
    exactly 1 and target scale exactly [S0 * 2]; and no hand record
    whatever has a target scale above [S0 * 2], in binary64 as in exact
    arithmetic. *)
Theorem scale_clamps_at_twice_base :
  (forall hand : HandData float,
     hand_detected hand = true -> isPinching hand = true ->
     pinchDistance hand = #0.1 ->
     pinchFactor hand = #1 /\ targetScale hand = scale_S0 * #2) /\
  (forall hand : HandData float, (scale_S0 * #2 <? targetScale hand) = false) /\
  (forall hand : HandData R, (targetScale hand <= scale_S0 * 2)%R).
Proof.
  split; [|split].
  - intros hand D P E. unfold targetScale, pinchFactor. rewrite D, P, E.
    split; vm_compute; reflexivity.
  - intros hand. unfold targetScale.
    destruct (hand_detected hand && isPinching hand).
    + exact (F64Scale.formula_not_above (pinchDistance hand * 10)%float).
    + vm_compute. reflexivity.
  - intros hand. unfold targetScale, scale_S0, baseScale.
    pose proof (pinchFactor_ideal hand) as (B & _).
    destruct (hand_detected hand && isPinching hand); ideal; lra.
Qed.

End ScaleClaims.

Section Smoothing.

Local Open Scope js_scope.

(** What a frame does to the three meshes once they are mounted. *)
Lemma useFrame_mounted {num : Type} `{Number num}
      (hand : HandData num) (delta : num) (g : Globe num)
      (mesh atmosphere core : Mesh num) :
  meshRef g = Some mesh -> atmosphereRef g = Some atmosphere -> coreRef g = Some core ->
  useFrame hand delta g =
    {| meshRef := Some
         {| rotation_y := rotation_y mesh + rotationSpeed hand * delta;
            scale := lerp (scale mesh) (uniform (targetScale hand)) #0.1 |};
       atmosphereRef := Some
         {| rotation_y := rotation_y atmosphere + (rotationSpeed hand * #0.8) * delta;
            scale := lerp (scale atmosphere) (uniform (targetScale hand * #1.2)) #0.1 |};
       coreRef := Some
         {| rotation_y := rotation_y core - (rotationSpeed hand * #0.5) * delta;
            scale := lerp (scale core) (uniform (targetScale hand * #0.8)) #0.1 |} |}.
Proof. intros M A C. unfold useFrame. rewrite M, A, C. reflexivity. Qed.

(** In exact arithmetic one step leaves nine tenths of the distance and
    stays between the current value and the target. *)
Lemma smoothed_ideal (current target : R) :
  (target - smoothed current target = 0.9 * (target - current) /\
   Rabs (target - smoothed current target) = 0.9 * Rabs (target - current) /\
   Rmin current target <= smoothed current target <= Rmax current target)%R.
Proof.
  unfold smoothed. ideal.
  assert (target - (current + 1 * / 10 * (target - current))
          = 0.9 * (target - current))%R as E by lra.
  split; [exact E|]. split.
  - rewrite E, Rabs_mult, (Rabs_pos_eq 0.9) by lra. reflexivity.
  - unfold Rmin, Rmax. destruct (Rle_dec current target); lra.
Qed.

(** After [n] frames with a fixed target, [0.9 ^ n] of the distance is
    left. *)
Lemma smoothed_ideal_iter (target current : R) (n : nat) :
  (target - Nat.iter n (fun s => smoothed s target) current
   = 0.9 ^ n * (target - current))%R.
Proof.
  induction n as [|n IH]; [cbn; lra|].
  rewrite Nat.iter_succ. cbn [pow].
  destruct (smoothed_ideal (Nat.iter n (fun s => smoothed s target) current) target)
    as (E & _).
  rewrite E, IH. lra.
Qed.



End Smoothing.

(** ** The HUD panel *)

Section HudClaims.

Local Open Scope js_scope.

(** C7: with the panel mounted and a face detected, the panel is placed at
    [((1 - x) * innerWidth + 180, y * innerHeight - 50)], made fully opaque
    and the status set to ONLINE; a face at (0.2, 0.3) in a 1000 x 800
    viewport is placed at (980, 190); with no face detected the opacity is
    set to 0.3 and the status to SEARCHING, the placement staying as it
    was. *)
Theorem hud_follows_face
        (face : FaceData float) (window : Window float)
        (hud : Hud float) (panel : Style float) :
  containerRef hud = Some panel ->
  (face_detected face = true ->
     updateHUD face window hud =
       {| containerRef := Some
            {| transform := Some ((#1 - x (face_position face)) * innerWidth window + #180,
                                  y (face_position face) * innerHeight window - #50);
               opacity := "1" |};
          systemStatus := "ONLINE" |}) /\
  (face_detected face = true ->
     x (face_position face) = #0.2 -> y (face_position face) = #0.3 ->
     innerWidth window = #1000 -> innerHeight window = #800 ->
     option_map transform (containerRef (updateHUD face window hud)) =
       Some (Some (#980, #190))) /\
  (face_detected face = false ->
     updateHUD face window hud =
       {| containerRef := Some {| transform := transform panel; opacity := "0.3" |};
          systemStatus := "SEARCHING..." |}).
Proof.
  intros P. unfold updateHUD. rewrite P. repeat split; intros D; rewrite D.
  - f64. change (F64.of_Q (-50)) with (- F64.of_Q 50)%float.
    rewrite F64Facts.add_opp. reflexivity.
  - intros -> -> -> ->. vm_compute. reflexivity.
  - reflexivity.
Qed.

(** Without a mounted panel the update changes nothing. *)
Lemma hud_unmounted (face : FaceData float) (window : Window float) (hud : Hud float) :
  containerRef hud = None -> updateHUD face window hud = hud.
Proof. intros P. unfold updateHUD. rewrite P. destruct (face_detected face); reflexivity. Qed.

End HudClaims.

(** ** The theorems at concrete inputs *)

Section Witnesses.

Local Open Scope js_scope.

Lemma frame_skip_gates_detection_witness :
  let skipped := frame (-1) [sample_face] [open_hand] in
  let fresh := frame 0 [sample_face] [open_hand] in
  (renderLoop skipped initialCells = Completed initialCells [RequestAnimationFrame] /\
   invocations FaceDetect (calls_of (renderLoop skipped initialCells)) = 0%nat /\
   invocations HandDetect (calls_of (renderLoop skipped initialCells)) = 0%nat /\
   invocations RequestAnimationFrame (calls_of (renderLoop skipped initialCells)) = 1%nat /\
   faceDataRef (cells_of (renderLoop skipped initialCells)) = faceDataRef initialCells /\
   handDataRef (cells_of (renderLoop skipped initialCells)) = handDataRef initialCells) /\
  (lastVideoTime (cells_of (renderLoop fresh initialCells)) = currentTime fresh /\
   invocations FaceDetect (calls_of (renderLoop fresh initialCells)) = 1%nat /\
   invocations HandDetect (calls_of (renderLoop fresh initialCells)) = 1%nat) /\
  run [fresh; frame 0 [] []] initialCells =
    Completed (cells_of (renderLoop fresh initialCells))
              (calls_of (renderLoop fresh initialCells) ++ [RequestAnimationFrame]).
Proof.
  cbv zeta. split; [|split].
  - apply (proj1 (frame_skip_gates_detection
                    (frame (-1) [sample_face] [open_hand]) initialCells)).
    vm_compute. reflexivity.
  - apply (proj1 (proj2 (frame_skip_gates_detection
                           (frame 0 [sample_face] [open_hand]) initialCells))).
    + vm_compute. reflexivity.
    + repeat constructor.
  - apply (proj2 (proj2 (frame_skip_gates_detection
                           (frame 0 [sample_face] [open_hand]) initialCells))).
    + vm_compute. reflexivity.
    + vm_compute. reflexivity.
Defined.

Lemma stale_on_loss_witness :
  let seen := cells_of (renderLoop (frame 0 [sample_face] [pinched_hand]) initialCells) in
  let lost := [frame 1 [] []; frame 1 [] []; frame 2 [] []] in
  (In FaceDetect (calls_of (renderLoop (frame 1 [] []) seen)) /\
   faceDataRef (cells_of (renderLoop (frame 1 [] []) seen)) =
     {| face_detected := false;
        face_position := face_position (faceDataRef seen);
        tilt := tilt (faceDataRef seen) |}) /\
  (In HandDetect (calls_of (renderLoop (frame 1 [] []) seen)) /\
   handDataRef (cells_of (renderLoop (frame 1 [] []) seen)) =
     {| hand_detected := false;
        isPinching := isPinching (handDataRef seen);
        pinchDistance := pinchDistance (handDataRef seen);
        hand_position := hand_position (handDataRef seen) |}) /\
  faceDataRef (cells_of (run lost seen)) =
    {| face_detected := false;
       face_position := face_position (faceDataRef seen);
       tilt := tilt (faceDataRef seen) |} /\
  handDataRef (cells_of (run lost seen)) =
    {| hand_detected := false;
       isPinching := isPinching (handDataRef seen);
       pinchDistance := pinchDistance (handDataRef seen);
       hand_position := hand_position (handDataRef seen) |} /\
  (face_position (faceDataRef (cells_of (run lost seen))) = face_position (faceDataRef seen) /\
   tilt (faceDataRef (cells_of (run lost seen))) = tilt (faceDataRef seen) /\
   face_detected (faceDataRef (cells_of (run lost seen))) = false) /\
  (hand_position (handDataRef (cells_of (run lost seen))) = hand_position (handDataRef seen) /\
   isPinching (handDataRef (cells_of (run lost seen))) = isPinching (handDataRef seen) /\
   pinchDistance (handDataRef (cells_of (run lost seen))) = pinchDistance (handDataRef seen) /\
   hand_detected (handDataRef (cells_of (run lost seen))) = false) /\
  faceDataRef (cells_of (run (frame 0 [sample_face] [pinched_hand] :: lost) initialCells)) =
    {| face_detected := false; face_position := landmark 0.2 0.3 0; tilt := #0 |} /\
  handDataRef (cells_of (run (frame 0 [sample_face] [pinched_hand] :: lost) initialCells)) =
    {| hand_detected := false;
       isPinching := euclidean2 (landmark 0.5 0.5 0.25) (landmark 0.5 0.5 (-0.5)) <? #0.05;
       pinchDistance := euclidean2 (landmark 0.5 0.5 0.25) (landmark 0.5 0.5 (-0.5));
       hand_position := landmark 0.5 0.75 0 |}.
Proof.
  cbv zeta.
  pose proof (@stale_on_loss float Float64) as (TF & TH & RF & RH & AF & AH & LF & LH).
  split; [|split; [|split; [|split; [|split; [|split; [|split]]]]]].
  - apply TF; reflexivity.
  - apply TH; [reflexivity|constructor|reflexivity].
  - apply RF; [reflexivity|repeat constructor].
  - apply RH; [reflexivity|constructor|repeat constructor].
  - match goal with |- context [run ?l ?c] => destruct (AF l c) as (P & T & D) end.
    + repeat constructor.
    + split; [exact P|]. split; [exact T|]. apply D. vm_compute. left. reflexivity.
  - match goal with |- context [run ?l ?c] => destruct (AH l c) as (P & I & Q & D) end.
    + repeat constructor.
    + split; [exact P|]. split; [exact I|]. split; [exact Q|].
      apply D. vm_compute. right. left. reflexivity.
  - apply (LF (frame 0 [sample_face] [pinched_hand]) (frame 1 [] [])
              [frame 1 [] []; frame 2 [] []] initialCells
              sample_face [] (landmark 0.2 0.3 0)).
    + reflexivity.
    + reflexivity.
    + reflexivity.
    + repeat constructor.
    + reflexivity.
    + repeat constructor.
  - apply (LH (frame 0 [sample_face] [pinched_hand]) (frame 1 [] [])
              [frame 1 [] []; frame 2 [] []] initialCells
              pinched_hand [] (landmark 0.5 0.75 0)
              (landmark 0.5 0.5 0.25) (landmark 0.5 0.5 (-0.5))).
    + reflexivity.
    + repeat constructor.
    + reflexivity.
    + reflexivity.
    + reflexivity.
    + reflexivity.
    + reflexivity.
    + constructor.
    + repeat constructor.
Defined.

Lemma tilt_is_always_zero_witness :
  (face_detected (face_at true 0.2 0.3) = true /\ tilt (face_at true 0.2 0.3) = #0) /\
  (face_detected (face_at false 0.5 0.5) = false /\
   tilt (face_at false 0.5 0.5) = tilt (@initialFaceData float _)).
Proof.
  pose proof (@tilt_is_always_zero float Float64) as (_ & _ & U).
  split.
  - apply (U {| faceLandmarks := [sample_face] |} initialFaceData (face_at true 0.2 0.3)).
    + vm_compute. reflexivity.
    + discriminate.
  - apply (U {| faceLandmarks := [] |} initialFaceData (face_at false 0.5 0.5)).
    + vm_compute. reflexivity.
    + reflexivity.
Defined.

Lemma pinching_implies_close_not_conversely_witness :
  (pinchDistance lost_pinch <? #0.05) = true /\
  isPinching
    (handDataRef (cells_of (renderLoop (frame 0 [] [open_hand]) initialCells))) =
  (pinchDistance
     (handDataRef (cells_of (renderLoop (frame 0 [] [open_hand]) initialCells))) <? #0.05).
Proof.
  pose proof pinching_implies_close_not_conversely as (I & _ & E).
  split.
  - apply (I [frame 0 [] [pinched_hand]; frame 1 [] []]). vm_compute. reflexivity.
  - apply (E {| landmarks := [open_hand] |} initialHandData).
    + discriminate.
    + vm_compute. reflexivity.
Defined.

Lemma rotation_rate_is_linear_in_hand_x_witness :
  rotationSpeed (hand_at 0.75 false 0.25) = rate_R0 + (0.75%float - #0.5) * gain_K /\
  rotationSpeed (hand_at 0.5 false 0.25) = rate_R0 /\
  rotationSpeed (hand_at 1 false 0.25) = rate_R0 + #0.5 * gain_K /\
  rotationSpeed (hand_at 0 false 0.25) = rate_R0 - #0.5 * gain_K /\
  rotationSpeed (@initialHandData float _) = rate_R0.
Proof.
  split; [|split; [|split; [|split]]].
  - apply (proj1 (rotation_rate_is_linear_in_hand_x (hand_at 0.75 false 0.25))).
    reflexivity.
  - apply (proj1 (proj2 (rotation_rate_is_linear_in_hand_x (hand_at 0.5 false 0.25))));
      reflexivity.
  - apply (proj1 (proj2 (proj2 (rotation_rate_is_linear_in_hand_x (hand_at 1 false 0.25)))));
      reflexivity.
  - apply (proj1 (proj2 (proj2 (proj2
             (rotation_rate_is_linear_in_hand_x (hand_at 0 false 0.25))))));
      reflexivity.
  - apply (proj2 (proj2 (proj2 (proj2 (rotation_rate_is_linear_in_hand_x initialHandData))))).
    reflexivity.
Defined.

Lemma pinch_scale_of_detected_hand_witness :
  targetScale lost_pinch = scale_S0 /\
  targetScale (hand_at 0.5 true 0.03125) =
    scale_S0 * (#0.5 + pinchFactor (hand_at 0.5 true 0.03125) * #1.5) /\
  ((0.5 * scale_S0 <= targetScale (exact_hand 0.01) <= targetScale (exact_hand 0.04) /\
    targetScale (exact_hand 0.04) <= 2 * scale_S0) /\
   targetScale (exact_hand 0) = 0.5 * scale_S0 /\
   targetScale (exact_hand 0.125) = 2 * scale_S0)%R.
Proof.
  pose proof pinch_scale_of_detected_hand as (F & I).
  split; [|split; [|split; [|split]]].
  - apply (proj1 (F lost_pinch)). left. vm_compute. reflexivity.
  - apply (proj1 (proj2 (F (hand_at 0.5 true 0.03125)))); reflexivity.
  - apply (I (exact_hand 0.01) (exact_hand 0.04)); try reflexivity; cbn; lra.
  - apply (I (exact_hand 0) (exact_hand 0.04)); try reflexivity; cbn; lra.
  - apply (I (exact_hand 0.01) (exact_hand 0.125)); try reflexivity; cbn; lra.
Defined.

Lemma scale_clamps_at_twice_base_witness :
  pinchFactor (hand_at 0.5 true #0.1) = #1 /\
  targetScale (hand_at 0.5 true #0.1) = scale_S0 * #2.
Proof.
  apply (proj1 scale_clamps_at_twice_base (hand_at 0.5 true #0.1)); reflexivity.
Defined.


Lemma hud_follows_face_witness :
  option_map transform
    (containerRef (updateHUD (face_at true #0.2 #0.3) sample_window
                             (initialHud (Some sample_panel)))) =
  Some (Some (#980, #190)).
Proof.
  apply (proj1 (proj2 (hud_follows_face (face_at true #0.2 #0.3) sample_window
                                         (initialHud (Some sample_panel)) sample_panel
                                         eq_refl)));
    reflexivity.
Defined.

End Witnesses.

(** ** More on the inference driver *)

Section DriverMore.

Context {num : Type} `{Number num}.
Local Open Scope js_scope.

(** A tick with a new timestamp that reports a face and a hand overwrites
    both records from landmark 1 of the first face and landmarks 0, 4 and 8
    of the first hand alone: further faces and hands, the other landmarks
    and the records held before have no influence. *)
Theorem tick_reads_first_face_and_hand
        (video : Video num) (c : Cells num)
        (face hand : list (Vector3 num)) (faces hands : list (list (Vector3 num)))
        (nose wrist thumbTip indexTip : Vector3 num) :
  (currentTime video === lastVideoTime c) = false ->
  faceLandmarks (faceLandmarker_detectForVideo video) = face :: faces ->
  nth_error face 1 = Some nose ->
  landmarks (handLandmarker_detectForVideo video) = hand :: hands ->
  nth_error hand 0 = Some wrist ->
  nth_error hand 4 = Some thumbTip ->
  nth_error hand 8 = Some indexTip ->
  renderLoop video c =
    Completed
      {| lastVideoTime := currentTime video;
         faceDataRef :=
           {| face_detected := true;
              face_position := {| x := x nose; y := y nose; z := z nose |};
              tilt := #0 |};
         handDataRef :=
           {| hand_detected := true;
              isPinching := euclidean2 thumbTip indexTip <? #0.05;
              pinchDistance := euclidean2 thumbTip indexTip;
              hand_position := {| x := x wrist; y := y wrist; z := z wrist |} |} |}
      [FaceDetect; HandDetect; RequestAnimationFrame].
Proof.
  intros E F N L N0 N4 N8.
  pose proof (renderLoop_changed video c E) as R. cbv zeta in R.
  rewrite (faceUpdate_some _ (faceDataRef c) face faces nose F N) in R.
  rewrite (handUpdate_some _ (handDataRef c) hand hands wrist thumbTip indexTip L N0 N4 N8) in R.
  exact R.
Qed.

(** A reported face without its landmark 1 stops the loop in the face part
    of the tick: only the face detector has been called, the timestamp is
    already recorded, both records are as before, and no later state of the
    video is processed. *)
Theorem short_face_ends_loop
        (video : Video num) (rest : list (Video num)) (c : Cells num)
        (face : list (Vector3 num)) (faces : list (list (Vector3 num))) :
  (currentTime video === lastVideoTime c) = false ->
  faceLandmarks (faceLandmarker_detectForVideo video) = face :: faces ->
  (List.length face <= 1)%nat ->
  run (video :: rest) c =
    TypeError {| lastVideoTime := currentTime video;
                 faceDataRef := faceDataRef c;
                 handDataRef := handDataRef c |}
              [FaceDetect].
Proof.
  intros E F Hlen. pose proof (renderLoop_changed video c E) as R. cbv zeta in R.
  assert (faceUpdate (faceLandmarker_detectForVideo video) (faceDataRef c) = None) as U.
  { unfold faceUpdate. rewrite F.
    replace (nth_error face 1) with (@None (Vector3 num)); [reflexivity|].
    symmetry. apply nth_error_None. exact Hlen. }
  rewrite U in R. cbn [run]. rewrite R. reflexivity.
Qed.

(** A reported hand without its landmarks up to 8 stops the loop in the hand
    part: both detectors have been called, the face record of this tick is
    already written, the hand record is as before, and the tick does not
    reschedule itself. *)
Theorem short_hand_ends_loop_after_face_write
        (video : Video num) (rest : list (Video num)) (c : Cells num)
        (written : FaceData num)
        (hand : list (Vector3 num)) (hands : list (list (Vector3 num))) :
  (currentTime video === lastVideoTime c) = false ->
  faceUpdate (faceLandmarker_detectForVideo video) (faceDataRef c) = Some written ->
  landmarks (handLandmarker_detectForVideo video) = hand :: hands ->
  (List.length hand <= 8)%nat ->
  run (video :: rest) c =
    TypeError {| lastVideoTime := currentTime video;
                 faceDataRef := written;
                 handDataRef := handDataRef c |}
              [FaceDetect; HandDetect].
Proof.
  intros E F L Hlen. pose proof (renderLoop_changed video c E) as R. cbv zeta in R.
  assert (handUpdate (handLandmarker_detectForVideo video) (handDataRef c) = None) as U.
  { unfold handUpdate. rewrite L.
    replace (nth_error hand 8) with (@None (Vector3 num))
      by (symmetry; apply nth_error_None; exact Hlen).
    destruct (nth_error hand 4); reflexivity. }
  rewrite F, U in R. cbn [run]. rewrite R. reflexivity.
Qed.

Lemma invocations_app (k : Call) (l1 l2 : list Call) :
  invocations k (l1 ++ l2) = (invocations k l1 + invocations k l2)%nat.
Proof. unfold invocations. rewrite filter_app, length_app. reflexivity. Qed.

(** The calls of one tick. *)
Lemma tick_calls (video : Video num) (c : Cells num) :
  (exists c', renderLoop video c = Completed c' [RequestAnimationFrame]) \/
  (exists c', renderLoop video c = Completed c' [FaceDetect; HandDetect; RequestAnimationFrame]) \/
  (exists c', renderLoop video c = TypeError c' [FaceDetect]) \/
  (exists c', renderLoop video c = TypeError c' [FaceDetect; HandDetect]).
Proof.
  destruct (currentTime video === lastVideoTime c) eqn:E.
  - left. rewrite (renderLoop_unchanged video c E). eauto.
  - right. pose proof (renderLoop_changed video c E) as R. cbv zeta in R.
    destruct (faceUpdate _ _); [|right; left; eauto].
    destruct (handUpdate _ _); [left|right; right]; eauto.
Qed.

Lemma run_cons_completed (video : Video num) (rest : list (Video num))
      (c c2 : Cells num) (l : list Call) :
  run (video :: rest) c = Completed c2 l ->
  exists c1 l1 l2,
    renderLoop video c = Completed c1 l1 /\ run rest c1 = Completed c2 l2 /\
    l = l1 ++ l2.
Proof.
  cbn [run]. destruct (renderLoop video c) as [c1 l1|c1 l1]; [|discriminate].
  destruct (run rest c1) as [c3 l3|c3 l3] eqn:G'; [|discriminate].
  intros G. injection G as <- <-. exists c1, l1, l3. repeat split; assumption || reflexivity.
Qed.

Lemma completed_run_counts (videos : list (Video num)) :
  forall (c c' : Cells num) (l : list Call),
    run videos c = Completed c' l ->
    invocations HandDetect l = invocations FaceDetect l /\
    invocations RequestAnimationFrame l = List.length videos.
Proof.
  induction videos as [|video rest IH]; intros c c' l G.
  - injection G as <- <-. split; reflexivity.
  - destruct (run_cons_completed video rest c c' l G) as (c1 & l1 & l2 & R & G' & ->).
    destruct (IH c1 c' l2 G') as [A B]. rewrite !invocations_app, A, B. cbn [List.length].
    destruct (tick_calls video c) as [[c0 R0]|[[c0 R0]|[[c0 R0]|[c0 R0]]]];
      rewrite R0 in R; try discriminate R; injection R as <- <-; split; reflexivity.
Qed.

Lemma run_counts_bounds (videos : list (Video num)) :
  forall c : Cells num,
    (invocations HandDetect (calls_of (run videos c))
     <= invocations FaceDetect (calls_of (run videos c)))%nat /\
    (invocations FaceDetect (calls_of (run videos c))
     <= invocations HandDetect (calls_of (run videos c)) + 1)%nat /\
    (invocations FaceDetect (calls_of (run videos c)) <= List.length videos)%nat /\
    (invocations RequestAnimationFrame (calls_of (run videos c)) <= List.length videos)%nat.
Proof.
  induction videos as [|video rest IH]; intros c.
  - cbn. repeat split; auto.
  - rewrite calls_of_run_cons. cbn [List.length].
    destruct (tick_calls video c) as [[c' R]|[[c' R]|[[c' R]|[c' R]]]]; rewrite R.
    + destruct (IH c') as (A & B & C & D). rewrite !invocations_app.
      change (invocations HandDetect [RequestAnimationFrame]) with 0%nat.
      change (invocations FaceDetect [RequestAnimationFrame]) with 0%nat.
      change (invocations RequestAnimationFrame [RequestAnimationFrame]) with 1%nat.
      lia.
    + destruct (IH c') as (A & B & C & D). rewrite !invocations_app.
      change (invocations HandDetect [FaceDetect; HandDetect; RequestAnimationFrame])
        with 1%nat.
      change (invocations FaceDetect [FaceDetect; HandDetect; RequestAnimationFrame])
        with 1%nat.
      change (invocations RequestAnimationFrame
                [FaceDetect; HandDetect; RequestAnimationFrame]) with 1%nat.
      lia.
    + cbn. lia.
    + cbn. lia.
Qed.

(** Over any run: the hand detector is called at most as often as the face
    detector and the face detector at most once more, neither more often
    than there were ticks; and in a run that completes the two detectors
    were called equally often and every tick rescheduled itself once. *)
Theorem detector_calls_pair_up (videos : list (Video num)) (c : Cells num) :
  (invocations HandDetect (calls_of (run videos c))
   <= invocations FaceDetect (calls_of (run videos c)))%nat /\
  (invocations FaceDetect (calls_of (run videos c))
   <= invocations HandDetect (calls_of (run videos c)) + 1)%nat /\
  (invocations FaceDetect (calls_of (run videos c)) <= List.length videos)%nat /\
  (invocations RequestAnimationFrame (calls_of (run videos c)) <= List.length videos)%nat /\
  (forall (c' : Cells num) (l : list Call),
     run videos c = Completed c' l ->
     invocations HandDetect l = invocations FaceDetect l /\
     invocations RequestAnimationFrame l = List.length videos).
Proof.
  destruct (run_counts_bounds videos c) as (A & B & C & D).
  split; [exact A|]. split; [exact B|]. split; [exact C|]. split; [exact D|].
  intros c' l. apply completed_run_counts.
Qed.

(** A stalled video costs one inference: when every state of the video
    carries the timestamp of the first, which is new and equal to itself,
    the detectors are called once each on the first tick and the later
    ticks only reschedule. *)
Theorem stalled_video_is_inferred_once
        (video : Video num) (rest : list (Video num)) (c : Cells num) :
  (currentTime video === lastVideoTime c) = false ->
  (currentTime video === currentTime video) = true ->
  faces_well_formed video -> hands_well_formed video ->
  Forall (fun later => currentTime later = currentTime video) rest ->
  exists c',
    renderLoop video c =
      Completed c' [FaceDetect; HandDetect; RequestAnimationFrame] /\
    run (video :: rest) c =
      Completed c' ([FaceDetect; HandDetect; RequestAnimationFrame]
                    ++ repeat RequestAnimationFrame (List.length rest)).
Proof.
  intros E Refl WF WH Same.
  pose proof (renderLoop_changed video c E) as R. cbv zeta in R.
  destruct (faceUpdate_total video (faceDataRef c) WF) as [face F]. rewrite F in R.
  destruct (handUpdate_total video (handDataRef c) WH) as [hand U]. rewrite U in R.
  eexists. split; [exact R|]. cbn [run]. rewrite R.
  match goal with |- context [run rest ?c1] => set (c' := c1) end.
  assert (run rest c' = Completed c' (repeat RequestAnimationFrame (List.length rest))) as Rest.
  { assert (lastVideoTime c' = currentTime video) as T by reflexivity.
    clearbody c'. clear R. induction Same as [|later rest' Hl _ IH]; [reflexivity|].
    cbn [run List.length repeat].
    rewrite (renderLoop_unchanged later c') by (rewrite Hl, T; exact Refl).
    rewrite IH. reflexivity. }
  rewrite Rest. reflexivity.
Qed.

End DriverMore.

(** ** More on the holographic globe *)

Section GlobeMore.

Local Open Scope js_scope.

(** With any of the three refs unset the callback returns at once: no mesh
    is rotated or scaled, the mounted ones included. *)
Theorem useFrame_needs_all_three_refs {num : Type} `{Number num}
        (hand : HandData num) (delta : num) (g : Globe num) :
  meshRef g = None \/ atmosphereRef g = None \/ coreRef g = None ->
  useFrame hand delta g = g.
Proof.
  unfold useFrame. intros [E|[E|E]]; rewrite E.
  - reflexivity.
  - destruct (meshRef g); reflexivity.
  - destruct (meshRef g); [destruct (atmosphereRef g)|]; reflexivity.
Qed.

(** Rotation and scale are driven by disjoint parts of the hand record: the
    new scales depend only on [detected], [isPinching] and [pinchDistance]
    (not on the hand position, nor on the frame time [delta]), and the new
    rotations only on [detected], the hand's [x] and [delta]. *)
Theorem rotation_and_scale_do_not_interfere {num : Type} `{Number num}
        (h1 h2 : HandData num) (d1 d2 : num) (g : Globe num) :
  hand_detected h1 = hand_detected h2 ->
  (isPinching h1 = isPinching h2 -> pinchDistance h1 = pinchDistance h2 ->
   option_map scale (meshRef (useFrame h1 d1 g)) =
     option_map scale (meshRef (useFrame h2 d2 g)) /\
   option_map scale (atmosphereRef (useFrame h1 d1 g)) =
     option_map scale (atmosphereRef (useFrame h2 d2 g)) /\
   option_map scale (coreRef (useFrame h1 d1 g)) =
     option_map scale (coreRef (useFrame h2 d2 g))) /\
  (x (hand_position h1) = x (hand_position h2) -> d1 = d2 ->
   option_map rotation_y (meshRef (useFrame h1 d1 g)) =
     option_map rotation_y (meshRef (useFrame h2 d2 g)) /\
   option_map rotation_y (atmosphereRef (useFrame h1 d1 g)) =
     option_map rotation_y (atmosphereRef (useFrame h2 d2 g)) /\
   option_map rotation_y (coreRef (useFrame h1 d1 g)) =
     option_map rotation_y (coreRef (useFrame h2 d2 g))).
Proof.
  intros D. split.
  - intros P Q.
    assert (targetScale h1 = targetScale h2) as T
        by (unfold targetScale, pinchFactor; rewrite D, P, Q; reflexivity).
    unfold useFrame.
    destruct (meshRef g), (atmosphereRef g), (coreRef g);
      cbn [meshRef atmosphereRef coreRef option_map scale]; rewrite ?T; repeat split.
  - intros X ->.
    assert (rotationSpeed h1 = rotationSpeed h2) as S
        by (unfold rotationSpeed; rewrite D, X; reflexivity).
    unfold useFrame.
    destruct (meshRef g), (atmosphereRef g), (coreRef g);
      cbn [meshRef atmosphereRef coreRef option_map rotation_y]; rewrite ?S; repeat split.
Qed.

(** The globe after [n] frames of a steady hand, in exact arithmetic. *)
Lemma frames_state (hand : HandData R) (delta : R) (mesh atmosphere core : Mesh R) (n : nat) :
  exists mesh' atmosphere' core' : Mesh R,
    Nat.iter n (useFrame hand delta)
             {| meshRef := Some mesh; atmosphereRef := Some atmosphere;
                coreRef := Some core |} =
      {| meshRef := Some mesh'; atmosphereRef := Some atmosphere';
         coreRef := Some core' |} /\
    (rotation_y mesh' = rotation_y mesh + INR n * (rotationSpeed hand * delta) /\
     rotation_y atmosphere' =
       rotation_y atmosphere + INR n * (rotationSpeed hand * 0.8 * delta) /\
     rotation_y core' = rotation_y core - INR n * (rotationSpeed hand * 0.5 * delta))%R /\
    approached n (targetScale hand) (scale mesh) (scale mesh') /\
    approached n (targetScale hand * 1.2)%R (scale atmosphere) (scale atmosphere') /\
    approached n (targetScale hand * 0.8)%R (scale core) (scale core').
Proof.
  induction n as [|n (m' & a' & c' & E & (Rm & Ra & Rc) & Sm & Sa & Sc)].
  - exists mesh, atmosphere, core. cbn [Nat.iter INR pow]. unfold approached.
    cbn [pow]. repeat split; lra.
  - rewrite Nat.iter_succ, E.
    rewrite (useFrame_mounted hand delta
               {| meshRef := Some m'; atmosphereRef := Some a'; coreRef := Some c' |}
               m' a' c' eq_refl eq_refl eq_refl).
    eexists _, _, _. split; [reflexivity|].
    cbn [rotation_y scale]. rewrite S_INR.
    unfold approached, lerp, uniform in *. cbn [x y z pow] in *. ideal.
    destruct Sm as (Sm1 & Sm2 & Sm3), Sa as (Sa1 & Sa2 & Sa3), Sc as (Sc1 & Sc2 & Sc3).
    repeat split; try lra.
Qed.

(** Rotation integrates the rate: after [n] frames of a steady hand with
    frame time [delta], in exact arithmetic, the globe has turned by
    [n * rate * delta], the atmosphere by 0.8 of that and the core by half
    of it in the opposite direction. *)
Theorem frames_integrate_rotation
        (hand : HandData R) (delta : R) (g : Globe R)
        (mesh atmosphere core : Mesh R) (n : nat) :
  meshRef g = Some mesh -> atmosphereRef g = Some atmosphere -> coreRef g = Some core ->
  (option_map rotation_y (meshRef (Nat.iter n (useFrame hand delta) g)) =
     Some (rotation_y mesh + INR n * (rotationSpeed hand * delta)) /\
   option_map rotation_y (atmosphereRef (Nat.iter n (useFrame hand delta) g)) =
     Some (rotation_y atmosphere + 0.8 * (INR n * (rotationSpeed hand * delta))) /\
   option_map rotation_y (coreRef (Nat.iter n (useFrame hand delta) g)) =
     Some (rotation_y core - 0.5 * (INR n * (rotationSpeed hand * delta))))%R.
Proof.
  intros M A C. destruct g as [gm ga gc]. cbn [meshRef atmosphereRef coreRef] in M, A, C.
  subst gm ga gc.
  destruct (frames_state hand delta mesh atmosphere core n)
    as (m' & a' & c' & -> & (Rm & Ra & Rc) & _).
  cbn [meshRef atmosphereRef coreRef option_map]. rewrite Rm, Ra, Rc.
  repeat split; f_equal; lra.
Qed.

(** The scale converges geometrically: after [n] frames of a steady hand,
    in exact arithmetic, each component of each mesh's scale has [0.9 ^ n]
    of its initial distance to that mesh's target left. *)
Theorem frames_converge_geometrically
        (hand : HandData R) (delta : R) (g : Globe R)
        (mesh atmosphere core : Mesh R) (n : nat) :
  meshRef g = Some mesh -> atmosphereRef g = Some atmosphere -> coreRef g = Some core ->
  exists mesh' atmosphere' core' : Mesh R,
    meshRef (Nat.iter n (useFrame hand delta) g) = Some mesh' /\
    atmosphereRef (Nat.iter n (useFrame hand delta) g) = Some atmosphere' /\
    coreRef (Nat.iter n (useFrame hand delta) g) = Some core' /\
    approached n (targetScale hand) (scale mesh) (scale mesh') /\
    approached n (targetScale hand * 1.2)%R (scale atmosphere) (scale atmosphere') /\
    approached n (targetScale hand * 0.8)%R (scale core) (scale core').
Proof.
  intros M A C. destruct g as [gm ga gc]. cbn [meshRef atmosphereRef coreRef] in M, A, C.
  subst gm ga gc.
  destruct (frames_state hand delta mesh atmosphere core n)
    as (m' & a' & c' & -> & _ & Sm & Sa & Sc).
  exists m', a', c'. cbn [meshRef atmosphereRef coreRef].
  split; [reflexivity|]. split; [reflexivity|]. split; [reflexivity|].
  split; [exact Sm|]. split; [exact Sa|exact Sc].
Qed.

(** The neutral point of the spin is hand x = 0.48, not the centre: in
    exact arithmetic the rate of a detected hand is [10 * x - 4.8], so it
    is zero exactly at 0.48, negative to the left of it, and runs from -4.8
    to 5.2 as x runs over [0,1]. *)
Theorem spin_reverses_left_of_0_48 (hand : HandData R) :
  hand_detected hand = true ->
  (rotationSpeed hand = 10 * x (hand_position hand) - 4.8 /\
   (rotationSpeed hand = 0 <-> x (hand_position hand) = 0.48) /\
   (rotationSpeed hand < 0 <-> x (hand_position hand) < 0.48) /\
   (0 <= x (hand_position hand) <= 1 -> -4.8 <= rotationSpeed hand <= 5.2))%R.
Proof.
  intros D. unfold rotationSpeed. rewrite D. ideal. repeat split; intros; lra.
Qed.

End GlobeMore.

(** ** More on the HUD *)

Section HudMore.

Local Open Scope string_scope.
Local Open Scope js_scope.

Lemma updatesHUD_lost {num : Type} `{Number num}
      (lost : list (FaceData num * Window num)) :
  Forall (fun fw => face_detected (fst fw) = false) lost ->
  forall (current : Style num) (status : string),
    containerRef (updatesHUD lost {| containerRef := Some current; systemStatus := status |})
    = Some {| transform := transform current;
              opacity := match lost with [] => opacity current | _ => "0.3" end |} /\
    systemStatus (updatesHUD lost {| containerRef := Some current; systemStatus := status |})
    = match lost with [] => status | _ => "SEARCHING..." end.
Proof.
  induction 1 as [|[face window] rest L _ IH]; intros current status.
  - destruct current. split; reflexivity.
  - cbn [fst] in L. unfold updatesHUD in *. cbn [fold_left fst snd].
    unfold updateHUD at 2 4. rewrite L. cbn [containerRef].
    destruct (IH {| transform := transform current; opacity := "0.3" |} "SEARCHING..."%string)
      as [C S].
    rewrite C, S. cbn [transform opacity]. destruct rest; split; reflexivity.
Qed.

(** The panel keeps its last placement while the face is lost: after an
    update that saw a face, any further updates that see none leave the
    transform where that update put it, whatever positions and windows they
    read, with opacity 0.3 and status SEARCHING. *)
Theorem hud_keeps_last_placement {num : Type} `{Number num}
        (face : FaceData num) (window : Window num)
        (lost : list (FaceData num * Window num))
        (hud : Hud num) (panel : Style num) :
  containerRef hud = Some panel ->
  face_detected face = true ->
  Forall (fun fw => face_detected (fst fw) = false) lost ->
  lost <> [] ->
  updatesHUD ((face, window) :: lost) hud =
    {| containerRef := Some
         {| transform := Some ((#1 - x (face_position face)) * innerWidth window + #180,
                               y (face_position face) * innerHeight window + #(-50));
            opacity := "0.3" |};
       systemStatus := "SEARCHING..." |}.
Proof.
  intros P D L NE. unfold updatesHUD. cbn [fold_left fst snd].
  unfold updateHUD at 2. rewrite D, P.
  match goal with
  | |- fold_left _ _ {| containerRef := Some ?st; systemStatus := ?s |} = _ =>
      destruct (updatesHUD_lost lost L st s) as [C S]
  end.
  unfold updatesHUD in C, S.
  match goal with |- ?lhs = _ => destruct lhs as [cr st] end.
  cbn [containerRef systemStatus] in C, S. rewrite C, S.
  destruct lost; [destruct (NE eq_refl)|reflexivity].
Qed.

(** From the camera frame to the panel: a tick with a new timestamp that
    reports a face puts the next HUD update at the mirrored nose tip of the
    first face, [((1 - x) * innerWidth + 180, y * innerHeight - 50)], even
    when the hand part of that tick fails; a tick that reports no face dims
    the panel where it is. *)
Theorem tick_places_hud
        (video : Video float) (c : Cells float)
        (window : Window float) (hud : Hud float) (panel : Style float) :
  (currentTime video === lastVideoTime c) = false ->
  containerRef hud = Some panel ->
  (forall (face : list (Vector3 float)) (faces : list (list (Vector3 float)))
          (nose : Vector3 float),
     faceLandmarks (faceLandmarker_detectForVideo video) = face :: faces ->
     nth_error face 1 = Some nose ->
     updateHUD (faceDataRef (cells_of (renderLoop video c))) window hud =
       {| containerRef := Some
            {| transform := Some ((#1 - x nose) * innerWidth window + #180,
                                  y nose * innerHeight window - #50);
               opacity := "1" |};
          systemStatus := "ONLINE" |}) /\
  (no_face video ->
     updateHUD (faceDataRef (cells_of (renderLoop video c))) window hud =
       {| containerRef := Some {| transform := transform panel; opacity := "0.3" |};
          systemStatus := "SEARCHING..." |}).
Proof.
  intros E P. pose proof (renderLoop_changed video c E) as R. cbv zeta in R. split.
  - intros face faces nose F N.
    rewrite (faceUpdate_some _ (faceDataRef c) face faces nose F N) in R.
    assert (faceDataRef (cells_of (renderLoop video c)) =
            {| face_detected := true;
               face_position := {| x := x nose; y := y nose; z := z nose |};
               tilt := #0 |}) as W
        by (destruct (handUpdate _ _); rewrite R; reflexivity).
    rewrite W. unfold updateHUD. rewrite P. cbn [face_detected face_position x y]. f64.
    change (F64.of_Q (-50)) with (- F64.of_Q 50)%float.
    rewrite F64Facts.add_opp. reflexivity.
  - intros NF. rewrite (faceUpdate_none _ _ NF) in R.
    assert (face_detected (faceDataRef (cells_of (renderLoop video c))) = false) as W
        by (destruct (handUpdate _ _); rewrite R; reflexivity).
    unfold updateHUD. rewrite W, P. reflexivity.
Qed.

(** Where the panel can go, in exact arithmetic: for a nose tip in the unit
    square the panel's offset lies in [[180, W + 180] x [-50, H - 50]], so
    it can start above the viewport and beyond its right edge; and the
    placement is mirrored, a larger nose x giving a smaller panel x. *)
Theorem hud_placement_range
        (face : FaceData R) (window : Window R) (hud : Hud R) (panel : Style R) :
  containerRef hud = Some panel ->
  face_detected face = true ->
  (0 <= innerWidth window)%R -> (0 <= innerHeight window)%R ->
  exists px py : R,
    option_map transform (containerRef (updateHUD face window hud)) = Some (Some (px, py)) /\
    (px = (1 - x (face_position face)) * innerWidth window + 180 /\
     py = y (face_position face) * innerHeight window - 50 /\
     (0 <= x (face_position face) <= 1 -> 180 <= px <= innerWidth window + 180) /\
     (0 <= y (face_position face) <= 1 -> -50 <= py <= innerHeight window - 50) /\
     (x (face_position face) * innerWidth window < 180 -> innerWidth window < px) /\
     (y (face_position face) * innerHeight window < 50 -> py < 0))%R.
Proof.
  intros P D W Hh. unfold updateHUD. rewrite D, P. eexists _, _.
  split; [reflexivity|]. ideal. repeat split; intros; nra.
Qed.

(** The footer disagrees with the globe after a pinch is lost: once a
    pinching hand is no longer reported, the footer reads NO SIGNAL together
    with PINCH DETECTED, while the globe, which also checks [detected], is
    driven to its base scale. *)
Theorem footer_shows_stale_pinch {num : Type} `{Number num}
        (videos : list (Video num)) (c : Cells num) :
  isPinching (handDataRef c) = true ->
  Forall no_hand videos ->
  In HandDetect (calls_of (run videos c)) ->
  let hand := handDataRef (cells_of (run videos c)) in
  handTrackingLabel hand = "NO SIGNAL"%string /\
  gestureLabel hand = "PINCH DETECTED"%string /\
  targetScale hand = baseScale.
Proof.
  intros P NH Called. cbv zeta.
  destruct (run_no_hand videos NH c) as (I & _).
  pose proof (run_no_hand_detected videos NH c Called) as D. cbv zeta in I.
  unfold handTrackingLabel, gestureLabel, targetScale. rewrite I, P, D.
  repeat split.
Qed.

End HudMore.

(** ** The rolling logs *)

Section Logs.

Lemma rollLogs_cons (line : option string) (rest : list (option string)) :
  rollLogs (line :: rest) = rest ++ [line].
Proof. reflexivity. Qed.

(** [k] updates, for [k] up to the length, rotate by [k]. *)
Lemma rollLogs_iter_small (prev : list (option string)) (k : nat) :
  (k <= List.length prev)%nat ->
  Nat.iter k rollLogs prev = skipn k prev ++ firstn k prev.
Proof.
  induction k as [|k IH]; intros Hk.
  - cbn. rewrite app_nil_r. reflexivity.
  - rewrite Nat.iter_succ, IH by lia.
    destruct (skipn k prev) as [|line rest] eqn:E.
    + exfalso. apply (f_equal (@List.length _)) in E. rewrite length_skipn in E.
      cbn in E. lia.
    + assert (prev = firstn k prev ++ line :: rest) as Split
          by (rewrite <- E; symmetry; apply firstn_skipn).
      assert (List.length (firstn k prev) = k) as Lk by (apply firstn_length_le; lia).
      cbn [app]. rewrite rollLogs_cons.
      replace (skipn (S k) prev) with rest.
      * replace (firstn (S k) prev) with (firstn k prev ++ [line]).
        -- rewrite app_assoc. reflexivity.
        -- rewrite Split at 2. replace (S k) with (List.length (firstn k prev) + 1)%nat by lia.
           rewrite firstn_app_2. reflexivity.
      * rewrite Split at 1. replace (S k) with (List.length (firstn k prev) + 1)%nat by lia.
        rewrite skipn_app, skipn_all2 by lia.
        replace (List.length (firstn k prev) + 1 - List.length (firstn k prev))%nat
          with 1%nat by lia.
        reflexivity.
Qed.

Lemma rollLogs_period (prev : list (option string)) :
  Nat.iter (List.length prev) rollLogs prev = prev.
Proof.
  rewrite rollLogs_iter_small by lia.
  rewrite skipn_all, firstn_all. reflexivity.
Qed.

Lemma iter_add {A} (f : A -> A) (a b : nat) (s : A) :
  Nat.iter (a + b) f s = Nat.iter a f (Nat.iter b f s).
Proof.
  induction a as [|a IH]; [reflexivity|].
  cbn [Nat.add]. rewrite !Nat.iter_succ, IH. reflexivity.
Qed.

Lemma rollLogs_periods (prev : list (option string)) (q : nat) :
  Nat.iter (q * List.length prev) rollLogs prev = prev.
Proof.
  induction q as [|q IH]; [reflexivity|].
  cbn [Nat.mul]. rewrite Nat.add_comm, iter_add, rollLogs_period. exact IH.
Qed.

(** The rolling logs are a cyclic shift: after [k] updates of a non-empty
    list the panel shows the list rotated by [k mod length], so the length
    never changes, no line is lost or repeated, and after [length] updates
    (9 for the built-in lines) the panel is back where it began; the empty
    list is the exception, turning into one [undefined] line for good. *)
Theorem rolling_logs_are_a_cyclic_shift (prev : list (option string)) (k : nat) :
  (prev <> [] ->
   Nat.iter k rollLogs prev =
     skipn (k mod List.length prev) prev ++ firstn (k mod List.length prev) prev /\
   List.length (Nat.iter k rollLogs prev) = List.length prev /\
   Nat.iter (k + List.length prev) rollLogs prev = Nat.iter k rollLogs prev) /\
  Nat.iter (S k) rollLogs [] = [None].
Proof.
  split.
  - intros NE.
    assert (List.length prev <> 0)%nat as Hn by (destruct prev; [congruence|discriminate]).
    assert (Nat.iter k rollLogs prev =
            skipn (k mod List.length prev) prev ++ firstn (k mod List.length prev) prev) as Shift.
    { replace (Nat.iter k rollLogs prev)
        with (Nat.iter (k mod List.length prev + k / List.length prev * List.length prev)
                       rollLogs prev)
        by (f_equal; pose proof (Nat.div_mod_eq k (List.length prev)); lia).
      rewrite iter_add, rollLogs_periods.
      apply rollLogs_iter_small. apply Nat.lt_le_incl, Nat.mod_upper_bound. exact Hn. }
    split; [exact Shift|]. split.
    + rewrite Shift, length_app, length_skipn, firstn_length_le.
      * pose proof (Nat.mod_upper_bound k _ Hn). lia.
      * apply Nat.lt_le_incl, Nat.mod_upper_bound. exact Hn.
    + rewrite iter_add, rollLogs_period. reflexivity.
  - induction k as [|k IH]; [reflexivity|].
    rewrite Nat.iter_succ, IH. reflexivity.
Qed.

End Logs.

(** ** Start-up *)

Section StartupFacts.

Context {WasmFileset FaceLandmarker HandLandmarker MediaStream : Type}.
Local Open Scope string_scope.

Lemma initializeVision_face_first
      (env : VisionEnv WasmFileset FaceLandmarker HandLandmarker)
      (s : VisionService FaceLandmarker HandLandmarker) :
  face_first s -> face_first (fst (initializeVision env s)).
Proof.
  unfold face_first, initializeVision. intros Inv.
  destruct (forVisionTasks env) as [vision|]; [|exact Inv].
  destruct (FaceLandmarker_createFromOptions env vision) as [face|]; [|exact Inv].
  destruct (HandLandmarker_createFromOptions env vision) as [hand|];
    cbn [fst faceLandmarker handLandmarker]; intros _; discriminate.
Qed.

(** [initializeVision] installs the face landmarker before the hand
    landmarker: over any sequence of calls from the initial module state a
    hand landmarker is never present without a face landmarker; a call that
    is fulfilled leaves both installed and returns them; and a call whose
    hand landmarker fails has already replaced the face landmarker, next to
    whatever hand landmarker an earlier call left. *)
Theorem initializeVision_installs_face_first
        (earlier : list (VisionEnv WasmFileset FaceLandmarker HandLandmarker))
        (env : VisionEnv WasmFileset FaceLandmarker HandLandmarker) :
  let s := fold_left (fun s e => fst (initializeVision e s)) earlier initialVisionService in
  (handLandmarker s <> None -> faceLandmarker s <> None) /\
  (forall f h,
     snd (initializeVision env s) = Fulfilled (f, h) ->
     getFaceLandmarker (fst (initializeVision env s)) = f /\
     getHandLandmarker (fst (initializeVision env s)) = h /\
     f <> None /\ h <> None) /\
  (forall vision face,
     forVisionTasks env = Fulfilled vision ->
     FaceLandmarker_createFromOptions env vision = Fulfilled face ->
     HandLandmarker_createFromOptions env vision = Rejected ->
     initializeVision env s =
       ({| faceLandmarker := Some face; handLandmarker := handLandmarker s |}, Rejected)).
Proof.
  cbv zeta. split; [|split].
  - assert (forall s0 : VisionService FaceLandmarker HandLandmarker, face_first s0 ->
              face_first (fold_left (fun s e => fst (initializeVision e s)) earlier s0)) as G.
    { induction earlier as [|e rest IH]; intros s0 Inv; [exact Inv|].
      cbn [fold_left]. apply IH, initializeVision_face_first, Inv. }
    apply G. intros N. destruct (N eq_refl).
  - intros f h. unfold initializeVision.
    destruct (forVisionTasks env) as [vision|]; [|discriminate].
    destruct (FaceLandmarker_createFromOptions env vision) as [face|]; [|discriminate].
    destruct (HandLandmarker_createFromOptions env vision) as [hand|]; [|discriminate].
    cbn [fst snd faceLandmarker handLandmarker]. intros E. injection E as <- <-.
    repeat split; discriminate.
  - intros vision face V F Hh. unfold initializeVision. rewrite V, F, Hh. reflexivity.
Qed.

(** [startApp] ends in one of two ways: everything was fulfilled, and then
    [loading] is cleared with no error; or something was rejected, and then
    the error message is set while [loading] stays set, no stream is
    attached and [predictWebcam] is not registered.  When [predictWebcam]
    is registered, both landmarkers are installed and the stream is
    attached, so its guard lets every video through. *)
Theorem startApp_ends_ready_or_failed
        (env : StartEnv WasmFileset FaceLandmarker HandLandmarker MediaStream)
        (s : VisionService FaceLandmarker HandLandmarker) :
  let s' := fst (startApp env s initialAppStatus) in
  let app' := snd (startApp env s initialAppStatus) in
  ((loading app' = false /\ error app' = None /\
    snd (initializeVision (vision_env env) s) <> Rejected /\
    getUserMedia env <> Rejected) \/
   (loading app' = true /\
    error app' = Some "Failed to initialize camera or AI models." /\
    srcObject app' = None /\ loadeddata_listener app' = false /\
    (snd (initializeVision (vision_env env) s) = Rejected \/
     getUserMedia env = Rejected))) /\
  (loadeddata_listener app' = true ->
   videoRef_current env = true /\ srcObject app' <> None /\
   forall (videos : list (Video float)) (face : FaceData float) (hand : HandData float),
     predictWebcam (Some videos) s' face hand <> None).
Proof.
  cbv zeta. unfold startApp.
  destruct (initializeVision (vision_env env) s) as [s1 [[f h]|]] eqn:I.
  - assert (exists fl hl, faceLandmarker s1 = Some fl /\ handLandmarker s1 = Some hl) as Both.
    { revert I. unfold initializeVision.
      destruct (forVisionTasks _) as [vision|]; [|discriminate].
      destruct (FaceLandmarker_createFromOptions _ vision) as [fl|]; [|discriminate].
      destruct (HandLandmarker_createFromOptions _ vision) as [hl|]; [|discriminate].
      intros E. injection E as <- _ _. eexists _, _. split; reflexivity. }
    destruct Both as (fl & hl & Ff & Fh).
    destruct (getUserMedia env) as [stream|].
    + cbn [fst snd]. split.
      * left. destruct (videoRef_current env); cbn.
        -- split; [reflexivity|]. split; [reflexivity|]. split; discriminate.
        -- split; [reflexivity|]. split; [reflexivity|]. split; discriminate.
      * destruct (videoRef_current env); cbn; [|discriminate].
        intros _. split; [reflexivity|]. split; [discriminate|].
        intros videos face hand. unfold predictWebcam, getFaceLandmarker, getHandLandmarker.
        rewrite Ff, Fh. discriminate.
    + cbn [fst snd]. split; [|cbn; discriminate].
      right. cbn. repeat split; auto.
  - cbn [fst snd]. split; [|cbn; discriminate].
    right. cbn. repeat split; auto.
Qed.

End StartupFacts.

Section LoopStart.

Context {FaceLandmarker HandLandmarker : Type}.
Local Open Scope float_scope.

(** A timestamp that is not negative differs from the initial -1. *)
Lemma nonnegative_is_not_minus_one (t : float) :
  (0 <=? t) = true -> (t =? -1) = false.
Proof.
  rewrite leb_spec, FloatAxioms.eqb_spec. unfold SFleb, SFeqb.
  change (Prim2SF 0) with (S754_zero false).
  replace (Prim2SF (-1)) with (S754_finite true 4503599627370496 (-52))
    by (vm_compute; reflexivity).
  destruct (Prim2SF t) as [s|s| |s m e]; cbn [SFcompare]; try discriminate.
  - reflexivity.
  - destruct s; [discriminate|reflexivity].
  - destruct s; [discriminate|reflexivity].
Qed.

(** [predictWebcam] makes no call at all when the video element or one of
    the landmarkers is missing; started with all three on a video whose
    first timestamp is not negative, it begins by calling the face detector
    on that first frame, since the loop starts from [lastVideoTime = -1]. *)
Theorem predictWebcam_starts_with_inference
        (s : VisionService FaceLandmarker HandLandmarker)
        (face : FaceData float) (hand : HandData float) :
  (forall video,
     video = None \/ getFaceLandmarker s = None \/ getHandLandmarker s = None ->
     predictWebcam video s face hand = None) /\
  (forall (first : Video float) (rest : list (Video float)),
     getFaceLandmarker s <> None -> getHandLandmarker s <> None ->
     (0 <=? currentTime first) = true ->
     exists (o : Outcome float) (calls : list Call),
       predictWebcam (Some (first :: rest)) s face hand = Some o /\
       calls_of o = FaceDetect :: calls /\
       lastVideoTime (cells_of (renderLoop first
                        {| lastVideoTime := -1; faceDataRef := face;
                           handDataRef := hand |})) = currentTime first).
Proof.
  split.
  - intros video [->|[E|E]]; unfold predictWebcam; [reflexivity| |].
    + rewrite E. destruct video; reflexivity.
    + rewrite E. destruct video; [destruct (getFaceLandmarker s)|]; reflexivity.
  - intros first rest Ff Fh T. unfold predictWebcam.
    destruct (getFaceLandmarker s); [|destruct (Ff eq_refl)].
    destruct (getHandLandmarker s); [|destruct (Fh eq_refl)].
    set (c := {| lastVideoTime := lit (-1); faceDataRef := face; handDataRef := hand |}).
    assert ((currentTime first === lastVideoTime c)%js = false) as E
        by (exact (nonnegative_is_not_minus_one _ T)).
    pose proof (renderLoop_changed first c E) as R. cbv zeta in R.
    eexists. 
    destruct (faceUpdate _ _) as [written|].
    + destruct (handUpdate _ _) as [hw|].
      * eexists. split; [reflexivity|]. rewrite calls_of_run_cons.
        change (renderLoop first
                  {| lastVideoTime := -1; faceDataRef := face; handDataRef := hand |})
          with (renderLoop first c).
        rewrite R. split; reflexivity.
      * eexists. split; [reflexivity|]. rewrite calls_of_run_cons.
        change (renderLoop first
                  {| lastVideoTime := -1; faceDataRef := face; handDataRef := hand |})
          with (renderLoop first c).
        rewrite R. split; reflexivity.
    + eexists. split; [reflexivity|]. rewrite calls_of_run_cons.
      change (renderLoop first {| lastVideoTime := -1; faceDataRef := face; handDataRef := hand |})
        with (renderLoop first c).
      rewrite R. split; reflexivity.
Qed.

End LoopStart.

(** ** The scale a pinch can reach, in binary64 *)

Module F64Cap.

Import F64 F64Rounding F64Scale.
Local Open Scope float_scope.

Lemma Prim2SF_0_05 : Prim2SF 0.05 = S754_finite false 7205759403792794 (-57).
Proof. vm_compute. reflexivity. Qed.

Lemma Prim2SF_10 : Prim2SF 10 = S754_finite false 5629499534213120 (-49).
Proof. vm_compute. reflexivity. Qed.

Lemma Prim2SF_3_125 : Prim2SF 3.125 = S754_finite false 7036874417766400 (-51).
Proof. vm_compute. reflexivity. Qed.

Lemma F2R_10 : F2R 5629499534213120 (-49) = F2R 5 1.
Proof. change 5629499534213120%Z with (5 * 2 ^ 50)%Z. rewrite F2R_shift by lia. reflexivity. Qed.

Lemma F2R_3_125 : F2R 7036874417766400 (-51) = F2R 25 (-3).
Proof. change 7036874417766400%Z with (25 * 2 ^ 48)%Z. rewrite F2R_shift by lia. reflexivity. Qed.

Lemma below_le (b b' : R) (f : spec_float) : (b <= b')%R -> below b f -> below b' f.
Proof.
  intros Hb. destruct f as [s|s| |[|] m e]; cbn [below]; auto. intros Hf. lra.
Qed.

Lemma below_not_nan (b : R) (y : float) : below b (Prim2SF y) -> is_nan y = false.
Proof.
  unfold is_nan. rewrite FloatAxioms.eqb_spec. unfold SFeqb.
  destruct (Prim2SF y) as [s|s| |[|] m e]; cbn [below SFcompare]; try contradiction.
  - reflexivity.
  - intros _. rewrite Z.compare_refl.
    change (Pos.compare_cont Eq m m) with (Pos.compare m m). rewrite Pos.compare_refl.
    reflexivity.
Qed.

(** A number strictly between zero and a normal constant is at most the
    constant's predecessor. *)
Lemma ltb_below_pred (y c : float) (mc : positive) (ec : Z) :
  Prim2SF c = S754_finite false mc ec -> (2 ^ 52 < Zpos mc)%Z ->
  (0 <? y) = true -> (y <? c) = true ->
  below (F2R (Zpos mc - 1) ec) (Prim2SF y).
Proof.
  intros Hc Hn. rewrite !ltb_spec, Hc. change (Prim2SF 0) with (S754_zero false).
  unfold SFltb. pose proof (Prim2SF_valid y) as Vy.
  destruct (Prim2SF y) as [s|s| |s m e]; cbn [SFcompare below]; try discriminate.
  - destruct s; discriminate.
  - destruct s; [discriminate|]. intros _.
    destruct (valid_normal _ _ _ Vy) as (Hi & _ & _).
    destruct (Z.compare_spec e ec) as [E|L|G]; try discriminate.
    + subst e. change (Pos.compare_cont Eq m mc) with (Pos.compare m mc).
      destruct (Pos.compare_spec m mc) as [|L|]; try discriminate. intros _.
      apply F2R_mono. lia.
    + intros _. apply Rle_trans with (F2R (2 ^ 52) ec); [|apply F2R_mono; lia].
      apply Rle_trans with (F2R (2 ^ 53) e); [apply F2R_mono; lia|].
      replace ec with (e + 1 + (ec - e - 1))%Z by lia.
      rewrite <- F2R_shift by lia.
      replace (F2R (2 ^ 53) e) with (F2R (2 ^ 52) (e + 1))
        by (rewrite <- F2R_shift by lia; reflexivity).
      apply F2R_mono.
      assert (1 <= 2 ^ (ec - e - 1))%Z by (apply Z.lt_pred_le, Z.pow_pos_nonneg; lia).
      nia.
Qed.

(** A number below a bound that is under a constant compares as less. *)
Lemma below_lt (y c : float) (b : R) (mc : positive) (ec : Z) :
  Prim2SF c = S754_finite false mc ec ->
  below b (Prim2SF y) -> (b < F2R (Zpos mc) ec)%R ->
  (y <? c) = true.
Proof.
  intros Hc Hy Hb. rewrite ltb_spec, Hc. unfold SFltb.
  pose proof (Prim2SF_valid y) as Vy. pose proof (Prim2SF_valid c) as Vc. rewrite Hc in Vc.
  destruct (Prim2SF y) as [s|s| |[|] m e]; cbn [below] in Hy; try contradiction.
  - reflexivity.
  - cbn [SFcompare]. destruct (Z.compare_spec e ec) as [E|L|G]; try reflexivity.
    + subst e. change (Pos.compare_cont Eq m mc) with (Pos.compare m mc).
      destruct (Pos.compare_spec m mc) as [E|L|G]; try reflexivity; exfalso.
      * subst m. lra.
      * assert (F2R (Zpos mc) ec <= F2R (Zpos m) ec)%R by (apply F2R_mono; lia). lra.
    + exfalso. pose proof (valid_exponent_order mc m ec e Vc Vy G). lra.
Qed.

(** The clamp of a number in (0, 0.5] is the number itself. *)
Lemma clamp_small (y : float) :
  below (F2R 1 (-1)) (Prim2SF y) ->
  below (F2R 1 (-1)) (Prim2SF (F64.max 0 (F64.min 1 y))).
Proof.
  intros Hy.
  assert (F64.min 1 y = y) as Min.
  { unfold F64.min. change (is_nan 1) with false. rewrite (below_not_nan _ y Hy). cbn [orb].
    rewrite (below_not_gt y 1 _ _ Prim2SF_1)
      by (rewrite F2R_1; apply (below_le (F2R 1 (-1))); [small_values|exact Hy]).
    rewrite (below_lt y 1 (F2R 1 (-1)) _ _ Prim2SF_1 Hy)
      by (rewrite F2R_1; small_values).
    reflexivity. }
  rewrite Min. unfold F64.max. change (is_nan 0) with false.
  rewrite (below_not_nan _ y Hy). cbn [orb]. change (is_neg_zero 0) with false.
  destruct (0 <? y); [exact Hy|]. destruct (y <? 0); exact I.
Qed.

Lemma binary_round_aux_negative (m e : Z) :
  not_positive (binary_round_aux prec emax true m e loc_Exact).
Proof.
  unfold binary_round_aux.
  destruct (shr_fexp prec emax m e loc_Exact) as [mrs1 e1].
  destruct (shr_fexp prec emax _ e1 loc_Exact) as [mrs2 e2].
  destruct (shr_m mrs2); [exact I| |exact I].
  destruct (e2 <=? emax - prec)%Z; exact I.
Qed.

(** The clamp of a number that is not positive is zero, or NaN. *)
Lemma clamp_not_positive (y : float) :
  not_positive (Prim2SF y) ->
  F64.max 0 (F64.min 1 y) = nan \/ F64.max 0 (F64.min 1 y) = 0.
Proof.
  intros Hy.
  assert (is_nan y = true \/
          (is_nan y = false /\ (1 <? y) = false /\ (y <? 1) = true /\ (0 <? y) = false)) as Cmp.
  { unfold is_nan. rewrite FloatAxioms.eqb_spec, !ltb_spec, Prim2SF_1.
    change (Prim2SF 0) with (S754_zero false). unfold SFeqb, SFltb.
    destruct (Prim2SF y) as [s|[|]| |[|] m e]; cbn [not_positive] in Hy; try contradiction;
      cbn [SFcompare].
    - right. repeat split.
    - right. repeat split.
    - left. reflexivity.
    - right. rewrite Z.compare_refl.
      change (Pos.compare_cont Eq m m) with (Pos.compare m m). rewrite Pos.compare_refl.
      repeat split. }
  destruct Cmp as [N|(N & G & L & P)].
  - left. unfold F64.min, F64.max. rewrite N. rewrite orb_true_r. reflexivity.
  - assert (F64.min 1 y = y) as Min
        by (unfold F64.min; change (is_nan 1) with false; rewrite N, G, L; reflexivity).
    right. rewrite Min. unfold F64.max. change (is_nan 0) with false. rewrite N, P.
    cbn [orb]. change (is_neg_zero 0) with false. destruct (y <? 0); reflexivity.
Qed.

(** Ten times a number that is below 0.05 and not above zero is not
    positive. *)
Lemma times_ten_not_positive (d : float) :
  (0 <? d) = false -> (d <? 0.05) = true -> not_positive (Prim2SF (d * 10)).
Proof.
  rewrite !ltb_spec, mul_spec, Prim2SF_0_05, Prim2SF_10.
  change (Prim2SF 0) with (S754_zero false). unfold SFltb, SF64mul.
  destruct (Prim2SF d) as [s|[|]| |[|] m e]; cbn [SFcompare SFmul xorb]; try discriminate;
    intros _ _; try exact I.
  apply binary_round_aux_negative.
Qed.

(** The clamp of ten times a distance below 0.05 is at most 0.5, or NaN. *)
Lemma clamp_of_close (d : float) :
  (d <? 0.05) = true ->
  F64.max 0 (F64.min 1 (d * 10)) = nan \/
  below (F2R 1 (-1)) (Prim2SF (F64.max 0 (F64.min 1 (d * 10)))).
Proof.
  intros Hd. destruct (0 <? d) eqn:Pd.
  - right. apply clamp_small.
    assert (below (F2R (7205759403792794 - 1) (-57)) (Prim2SF d)) as Bd
        by (apply (ltb_below_pred d 0.05 _ _ Prim2SF_0_05); [lia|exact Pd|exact Hd]).
    apply (mul_below d 10 _ 5629499534213120 (-49) (-4) 1 (-1) (-1) Bd); try lia.
    + change (7205759403792794 - 1)%Z with 7205759403792793%Z.
      apply Rle_trans with (F2R (1 * 2 ^ 53) (-57)); [apply F2R_mono; lia|].
      rewrite F2R_shift by lia. change (-57 + 53)%Z with (-4)%Z. unfold F2R. lra.
    + exact Prim2SF_10.
    + rewrite F2R_10, <- F2R_mul. cbn [Z.add].
      replace (F2R 1 (-1)) with (F2R (1 * 2 ^ 55) (-1 + -55))
        by (rewrite F2R_shift by lia; f_equal; lia).
      cbn [Z.add]. apply F2R_mono. lia.
    + small_values.
  - destruct (clamp_not_positive (d * 10) (times_ten_not_positive d Pd Hd)) as [N|Z0].
    + left. exact N.
    + right. rewrite Z0. exact I.
Qed.

(** The scale formula applied to a factor in [0, 0.5] stays within
    3.125. *)
Lemma formula_below_half (pf : float) :
  below (F2R 1 (-1)) (Prim2SF pf) ->
  below (F2R 25 (-3)) (Prim2SF (2.5 * (0.5 + pf * 1.5))).
Proof.
  intros Hpf.
  assert (below (F2R 3 (-2)) (Prim2SF (pf * 1.5))) as H1.
  { apply (mul_below pf 1.5 (F2R 1 (-1)) 6755399441055744 (-52) (-1) 3 (-2) 0 Hpf); try lia.
    - small_values.
    - exact Prim2SF_1_5.
    - rewrite F2R_1_5. small_values.
    - small_values. }
  assert (below (F2R 5 (-2)) (Prim2SF (0.5 + pf * 1.5))) as H2.
  { apply (add_below 0.5 (pf * 1.5) (F2R 3 (-2)) 4503599627370496 (-53) 1 5 (-2) 1
                     Prim2SF_0_5 H1); try lia.
    - small_values.
    - rewrite F2R_0_5. small_values.
    - small_values. }
  rewrite F64Facts.mul_comm.
  apply (mul_below (0.5 + pf * 1.5) 2.5 (F2R 5 (-2)) 5629499534213120 (-51) 1 25 (-3) 2 H2);
    try lia.
  - small_values.
  - exact Prim2SF_2_5.
  - rewrite F2R_2_5. small_values.
  - small_values.
Qed.

(** No pinch distance below 0.05 drives the scale formula above 3.125. *)
Lemma formula_of_close_not_above (d : float) :
  (d <? 0.05) = true ->
  (3.125 <? 2.5 * (0.5 + F64.max 0 (F64.min 1 (d * 10)) * 1.5)) = false.
Proof.
  intros Hd. destruct (clamp_of_close d Hd) as [-> | B].
  - vm_compute. reflexivity.
  - apply (below_not_gt _ 3.125 _ _ Prim2SF_3_125). rewrite F2R_3_125.
    apply formula_below_half, B.
Qed.

End F64Cap.

Section ScaleCap.

Local Open Scope js_scope.

Lemma backed_scale_cap (hand : HandData float) :
  pinch_backed hand -> (scale_S0 * #1.25 <? targetScale hand) = false.
Proof.
  intros B. unfold targetScale.
  destruct (hand_detected hand); cbn [andb]; [|vm_compute; reflexivity].
  destruct (isPinching hand) eqn:P; [|vm_compute; reflexivity].
  exact (F64Cap.formula_of_close_not_above (pinchDistance hand) (B P)).
Qed.

(** A pinch never enlarges the globe beyond 1.25 times its base scale: in
    the initial state and after any sequence of ticks, the target scale
    computed from the hand record is not above [S0 * 1.25] = 3.125, because
    a set pinch flag comes with a distance below 0.05 while the formula
    reaches [S0 * 2] only from distance 0.1 on. *)
Theorem reachable_scale_stays_under_1_25 (videos : list (Video float)) :
  (scale_S0 * #1.25 <? targetScale (handDataRef (cells_of (run videos initialCells)))) = false.
Proof.
  apply backed_scale_cap. apply (run_backed videos initialCells).
  intros P. discriminate P.
Qed.

End ScaleCap.

(** ** The further theorems at concrete inputs *)

Section MoreWitnesses.

Local Open Scope string_scope.
Local Open Scope js_scope.

Lemma tick_reads_first_face_and_hand_witness :
  renderLoop (frame 0 [sample_face; short_face] [open_hand; short_hand]) initialCells =
  renderLoop (frame 0 [sample_face] [open_hand])
             (cells_of (renderLoop (frame 2 [] [pinched_hand]) initialCells)).
Proof.
  rewrite (tick_reads_first_face_and_hand
             (frame 0 [sample_face; short_face] [open_hand; short_hand]) initialCells
             sample_face open_hand [short_face] [short_hand]
             (landmark 0.2 0.3 0) (landmark 0.5 0.75 0)
             (landmark 0.25 0.5 0) (landmark 0.5 0.5 0));
    reflexivity.
Defined.

Lemma short_face_ends_loop_witness :
  run [frame 0 [short_face] [open_hand]; frame 1 [sample_face] [open_hand]] initialCells =
    TypeError {| lastVideoTime := 0%float;
                 faceDataRef := initialFaceData;
                 handDataRef := initialHandData |}
              [FaceDetect].
Proof.
  apply (short_face_ends_loop (frame 0 [short_face] [open_hand])
                              [frame 1 [sample_face] [open_hand]] initialCells
                              short_face []).
  - reflexivity.
  - reflexivity.
  - apply le_n.
Defined.

Lemma short_hand_ends_loop_after_face_write_witness :
  run [frame 0 [sample_face] [short_hand]; frame 1 [sample_face] [open_hand]] initialCells =
    TypeError {| lastVideoTime := 0%float;
                 faceDataRef := face_at true 0.2 0.3;
                 handDataRef := initialHandData |}
              [FaceDetect; HandDetect].
Proof.
  apply (short_hand_ends_loop_after_face_write
           (frame 0 [sample_face] [short_hand])
           [frame 1 [sample_face] [open_hand]] initialCells
           (face_at true 0.2 0.3) short_hand []).
  - reflexivity.
  - reflexivity.
  - reflexivity.
  - repeat constructor.
Defined.

Lemma detector_calls_pair_up_witness :
  invocations HandDetect
    [FaceDetect; HandDetect; RequestAnimationFrame; RequestAnimationFrame] =
  invocations FaceDetect
    [FaceDetect; HandDetect; RequestAnimationFrame; RequestAnimationFrame] /\
  invocations RequestAnimationFrame
    [FaceDetect; HandDetect; RequestAnimationFrame; RequestAnimationFrame] = 2%nat.
Proof.
  apply (proj2 (proj2 (proj2 (proj2
           (detector_calls_pair_up [frame 0 [sample_face] [open_hand]; frame 0 [] []]
                                   initialCells))))
               (cells_of (renderLoop (frame 0 [sample_face] [open_hand]) initialCells))).
  reflexivity.
Defined.

Lemma stalled_video_is_inferred_once_witness :
  exists c' : Cells float,
    renderLoop (frame 0 [sample_face] [open_hand]) initialCells =
      Completed c' [FaceDetect; HandDetect; RequestAnimationFrame] /\
    run [frame 0 [sample_face] [open_hand]; frame 0 [] [pinched_hand]; frame 0 [short_face] []]
        initialCells =
      Completed c' ([FaceDetect; HandDetect; RequestAnimationFrame]
                    ++ repeat RequestAnimationFrame 2).
Proof.
  apply (stalled_video_is_inferred_once
           (frame 0 [sample_face] [open_hand])
           [frame 0 [] [pinched_hand]; frame 0 [short_face] []] initialCells).
  - reflexivity.
  - reflexivity.
  - repeat constructor.
  - repeat constructor.
  - repeat constructor.
Defined.

Lemma useFrame_needs_all_three_refs_witness :
  useFrame (hand_at 1 true 0.03125) 0.0625%float
           {| meshRef := Some fresh_mesh; atmosphereRef := Some fresh_mesh;
              coreRef := None |} =
  {| meshRef := Some fresh_mesh; atmosphereRef := Some fresh_mesh; coreRef := None |}.
Proof.
  apply useFrame_needs_all_three_refs. right. right. reflexivity.
Defined.

Lemma rotation_and_scale_do_not_interfere_witness :
  option_map scale (meshRef (useFrame (hand_at 0 true 0.03125) 0.0625%float sample_globe)) =
  option_map scale (meshRef (useFrame (hand_at 1 true 0.03125) 0.25%float sample_globe)) /\
  option_map rotation_y
    (coreRef (useFrame (hand_at 1 true 0.03125) 0.25%float sample_globe)) =
  option_map rotation_y
    (coreRef (useFrame (hand_at 1 false 0.5) 0.25%float sample_globe)).
Proof.
  split.
  - apply (proj1 (rotation_and_scale_do_not_interfere
                    (hand_at 0 true 0.03125) (hand_at 1 true 0.03125)
                    0.0625%float 0.25%float sample_globe eq_refl)); reflexivity.
  - apply (proj2 (rotation_and_scale_do_not_interfere
                    (hand_at 1 true 0.03125) (hand_at 1 false 0.5)
                    0.25%float 0.25%float sample_globe eq_refl)); reflexivity.
Defined.

Lemma frames_integrate_rotation_witness :
  (option_map rotation_y (meshRef (Nat.iter 60 (useFrame (exact_hand 0.01) 0.016) exact_globe)) =
     Some (rotation_y exact_mesh + INR 60 * (rotationSpeed (exact_hand 0.01) * 0.016)) /\
   option_map rotation_y
     (atmosphereRef (Nat.iter 60 (useFrame (exact_hand 0.01) 0.016) exact_globe)) =
     Some (rotation_y exact_mesh
           + 0.8 * (INR 60 * (rotationSpeed (exact_hand 0.01) * 0.016))) /\
   option_map rotation_y (coreRef (Nat.iter 60 (useFrame (exact_hand 0.01) 0.016) exact_globe)) =
     Some (rotation_y exact_mesh
           - 0.5 * (INR 60 * (rotationSpeed (exact_hand 0.01) * 0.016))))%R.
Proof.
  apply (frames_integrate_rotation (exact_hand 0.01) 0.016%R exact_globe
                                   exact_mesh exact_mesh exact_mesh 60); reflexivity.
Defined.

Lemma frames_converge_geometrically_witness :
  exists mesh' atmosphere' core' : Mesh R,
    meshRef (Nat.iter 60 (useFrame (exact_hand 0.01) 0.016%R) exact_globe) = Some mesh' /\
    atmosphereRef (Nat.iter 60 (useFrame (exact_hand 0.01) 0.016%R) exact_globe)
      = Some atmosphere' /\
    coreRef (Nat.iter 60 (useFrame (exact_hand 0.01) 0.016%R) exact_globe) = Some core' /\
    approached 60 (targetScale (exact_hand 0.01)) (scale exact_mesh) (scale mesh') /\
    approached 60 (targetScale (exact_hand 0.01) * 1.2)%R (scale exact_mesh)
               (scale atmosphere') /\
    approached 60 (targetScale (exact_hand 0.01) * 0.8)%R (scale exact_mesh) (scale core').
Proof.
  apply (frames_converge_geometrically (exact_hand 0.01) 0.016%R exact_globe
                                       exact_mesh exact_mesh exact_mesh 60); reflexivity.
Defined.

Lemma spin_reverses_left_of_0_48_witness :
  (rotationSpeed (exact_hand 0.01) = 10 * x (hand_position (exact_hand 0.01)) - 4.8 /\
   (rotationSpeed (exact_hand 0.01) = 0 <-> x (hand_position (exact_hand 0.01)) = 0.48) /\
   (rotationSpeed (exact_hand 0.01) < 0 <-> x (hand_position (exact_hand 0.01)) < 0.48) /\
   (0 <= x (hand_position (exact_hand 0.01)) <= 1 ->
    -4.8 <= rotationSpeed (exact_hand 0.01) <= 5.2))%R.
Proof.
  apply (spin_reverses_left_of_0_48 (exact_hand 0.01)). reflexivity.
Defined.

Lemma hud_keeps_last_placement_witness :
  updatesHUD [(face_at true 0.2 0.3, sample_window);
              (face_at false 0.2 0.3, sample_window);
              (face_at false 0.75 0.5, sample_window)]
             (initialHud (Some sample_panel)) =
    {| containerRef := Some {| transform := Some (980%float, 190%float); opacity := "0.3" |};
       systemStatus := "SEARCHING..." |}.
Proof.
  rewrite (hud_keeps_last_placement
             (face_at true 0.2 0.3) sample_window
             [(face_at false 0.2 0.3, sample_window); (face_at false 0.75 0.5, sample_window)]
             (initialHud (Some sample_panel)) sample_panel).
  - reflexivity.
  - reflexivity.
  - reflexivity.
  - repeat constructor.
  - discriminate.
Defined.

Lemma tick_places_hud_witness :
  updateHUD (faceDataRef (cells_of (renderLoop (frame 0 [sample_face] [short_hand])
                                               initialCells)))
            sample_window (initialHud (Some sample_panel)) =
    {| containerRef := Some {| transform := Some (980%float, 190%float); opacity := "1" |};
       systemStatus := "ONLINE" |} /\
  updateHUD (faceDataRef (cells_of (renderLoop (frame 0 [] [open_hand]) initialCells)))
            sample_window (initialHud (Some sample_panel)) =
    {| containerRef := Some {| transform := None; opacity := "0.3" |};
       systemStatus := "SEARCHING..." |}.
Proof.
  split.
  - destruct (tick_places_hud (frame 0 [sample_face] [short_hand]) initialCells
                              sample_window (initialHud (Some sample_panel)) sample_panel)
      as [placed _]; [reflexivity | reflexivity |].
    rewrite (placed sample_face [] (landmark 0.2 0.3 0)); reflexivity.
  - destruct (tick_places_hud (frame 0 [] [open_hand]) initialCells
                              sample_window (initialHud (Some sample_panel)) sample_panel)
      as [_ dimmed]; [reflexivity | reflexivity |].
    apply dimmed. reflexivity.
Defined.

Lemma hud_placement_range_witness :
  exists px py : R,
    option_map transform
      (containerRef (updateHUD (exact_face 0.1 0.05) exact_window
                               {| containerRef := Some exact_panel;
                                  systemStatus := "STANDBY" |}))
    = Some (Some (px, py)) /\
    (px = (1 - x (face_position (exact_face 0.1 0.05))) * innerWidth exact_window + 180 /\
     py = y (face_position (exact_face 0.1 0.05)) * innerHeight exact_window - 50 /\
     (0 <= x (face_position (exact_face 0.1 0.05)) <= 1 ->
      180 <= px <= innerWidth exact_window + 180) /\
     (0 <= y (face_position (exact_face 0.1 0.05)) <= 1 ->
      -50 <= py <= innerHeight exact_window - 50) /\
     (x (face_position (exact_face 0.1 0.05)) * innerWidth exact_window < 180 ->
      innerWidth exact_window < px) /\
     (y (face_position (exact_face 0.1 0.05)) * innerHeight exact_window < 50 -> py < 0))%R.
Proof.
  apply (hud_placement_range (exact_face 0.1 0.05) exact_window
                             {| containerRef := Some exact_panel; systemStatus := "STANDBY" |}
                             exact_panel).
  - reflexivity.
  - reflexivity.
  - cbn. lra.
  - cbn. lra.
Defined.

Lemma footer_shows_stale_pinch_witness :
  let pinched := cells_of (renderLoop (frame 0 [] [pinched_hand]) initialCells) in
  let hand := handDataRef (cells_of (run [frame 1 [] []] pinched)) in
  handTrackingLabel hand = "NO SIGNAL" /\
  gestureLabel hand = "PINCH DETECTED" /\
  targetScale hand = baseScale.
Proof.
  intros pinched.
  apply (footer_shows_stale_pinch [frame 1 [] []] pinched).
  - reflexivity.
  - repeat constructor.
  - vm_compute. right. left. reflexivity.
Defined.

Lemma rolling_logs_are_a_cyclic_shift_witness :
  Nat.iter 11 rollLogs dummyLogs =
    (skipn (11 mod List.length dummyLogs) dummyLogs
     ++ firstn (11 mod List.length dummyLogs) dummyLogs)%list /\
  List.length (Nat.iter 11 rollLogs dummyLogs) = List.length dummyLogs /\
  Nat.iter (11 + List.length dummyLogs) rollLogs dummyLogs = Nat.iter 11 rollLogs dummyLogs.
Proof.
  apply (proj1 (rolling_logs_are_a_cyclic_shift dummyLogs 11)). discriminate.
Defined.

Lemma initializeVision_installs_face_first_witness :
  (getFaceLandmarker (fst (initializeVision good_vision initialVisionService)) = Some 1%nat /\
   getHandLandmarker (fst (initializeVision good_vision initialVisionService)) = Some 2%nat /\
   Some 1%nat <> None /\ Some 2%nat <> None) /\
  initializeVision handless_vision (fst (initializeVision good_vision initialVisionService)) =
    ({| faceLandmarker := Some 3%nat; handLandmarker := Some 2%nat |}, Rejected).
Proof.
  split.
  - apply (proj1 (proj2 (initializeVision_installs_face_first [] good_vision))).
    reflexivity.
  - apply (proj2 (proj2 (initializeVision_installs_face_first [good_vision] handless_vision))
                 tt 3%nat); reflexivity.
Defined.

Lemma startApp_ends_ready_or_failed_witness :
  videoRef_current good_start = true /\
  srcObject (snd (startApp good_start initialVisionService initialAppStatus)) <> None /\
  forall (videos : list (Video float)) (face : FaceData float) (hand : HandData float),
    predictWebcam (Some videos)
                  (fst (startApp good_start initialVisionService initialAppStatus))
                  face hand <> None.
Proof.
  apply (proj2 (startApp_ends_ready_or_failed good_start initialVisionService)).
  reflexivity.
Defined.

Lemma predictWebcam_starts_with_inference_witness :
  exists (o : Outcome float) (calls : list Call),
    predictWebcam (Some [frame 0 [sample_face] [open_hand]; frame 0 [] []])
                  (fst (initializeVision good_vision initialVisionService))
                  initialFaceData initialHandData = Some o /\
    calls_of o = FaceDetect :: calls /\
    lastVideoTime (cells_of (renderLoop (frame 0 [sample_face] [open_hand])
                               {| lastVideoTime := (-1)%float; faceDataRef := initialFaceData;
                                  handDataRef := initialHandData |})) =
      currentTime (frame 0 [sample_face] [open_hand]).
Proof.
  apply (proj2 (predictWebcam_starts_with_inference
                  (fst (initializeVision good_vision initialVisionService))
                  initialFaceData initialHandData)).
  - discriminate.
  - discriminate.
  - reflexivity.
Defined.

End MoreWitnesses.
